(** * transcribe.cpp: voice-activity driven speech segmentation

    A shallow embedding of [src/transcribe.cpp] (the real-time transcription
    front end built on whisper.cpp) and the properties of its segmentation
    loop.

    Conventions of the embedding:
    - C++ [int], [long long] and [size_t] values are integers in [Z]; the
      conversions between them are written out ([int32], [int64], [size_t]).
    - C++ [float] values are IEEE 754 values ([spec_float] of the Standard
      Library); the program only compares them.
    - [std::vector<float>] is [list float], [std::string] is [string].
    - The collaborators (VAD model, whisper model, audio capture, clock) are
      inputs of each loop iteration. A trace of events records the calls to
      the VAD model and to the whisper model, the writes to standard output,
      and the initialisation and release of the collaborators.
    - The event poll, the wait and [audio.get] shape the iterations and are
      not recorded; neither are the diagnostics written to [stderr] (the
      [verbose] messages and the error messages) nor the logging set-up. *)

From Stdlib Require Import ZArith List String Ascii Bool Lia.
From Stdlib Require Import Floats.SpecFloat.
Import ListNotations.
Local Open Scope Z_scope.

(* ------------------------------------------------------------------ *)
(** ** Machine integers *)

Definition wrap_signed (bits z : Z) : Z :=
  (z + 2 ^ (bits - 1)) mod 2 ^ bits - 2 ^ (bits - 1).

(** [int32_t] and [long long] results (wrap-around written out). *)
Definition int32 (z : Z) : Z := wrap_signed 32 z.
Definition int64 (z : Z) : Z := wrap_signed 64 z.

(** Conversion to [size_t] (64-bit unsigned). *)
Definition size_t (z : Z) : Z := z mod 2 ^ 64.

(* ------------------------------------------------------------------ *)
(** ** Samples, probabilities and vectors *)

Definition float : Type := spec_float.

(** [a < b] on C++ floats: false as soon as one side is NaN. *)
Definition float_lt (a b : float) : bool := SFltb a b.

(** The binary32 values of the literals [0.4f], [0.5f] and [0.6f]. *)
Definition f32_0_4 : float := S754_finite false 13421773 (-25).
Definition f32_0_5 : float := S754_finite false 8388608 (-24).
Definition f32_0_6 : float := S754_finite false 10066330 (-24).

Definition pcm : Type := list float.

Definition vec_empty {A : Type} (v : list A) : bool :=
  match v with
  | [] => true
  | _ :: _ => false
  end.

(** The range [v.end() - n, v.end()) of a vector. *)
Definition lastn {A : Type} (n : nat) (v : list A) : list A :=
  skipn (List.length v - n) v.

(** [std::max_element(first, last)] on a non-empty range: the first element
    that no later element exceeds, found with [operator<]. *)
Fixpoint max_element_from (largest : float) (rest : list float) : float :=
  match rest with
  | [] => largest
  | x :: rest' =>
      max_element_from (if float_lt largest x then x else largest) rest'
  end.

Definition max_element (range : list float) : option float :=
  match range with
  | [] => None
  | first :: rest => Some (max_element_from first rest)
  end.

(* ------------------------------------------------------------------ *)
(** ** Collaborators and the trace of their use *)

(** What one call of [whisper_vad_detect_speech] leaves behind: its return
    value, [whisper_vad_n_probs] and [whisper_vad_probs] ([None] is the null
    pointer). *)
Record vad_result : Type := {
  vad_success : bool;
  vad_n_probs : Z;
  vad_probs : option (list float)
}.

(** A VAD context answers a window of samples. *)
Definition whisper_vad_context : Type := pcm -> vad_result.

Inductive whisper_sampling_strategy : Type :=
| WHISPER_SAMPLING_GREEDY
| WHISPER_SAMPLING_BEAM_SEARCH.

(** The fields of [whisper_full_params] that [transcribe_audio_segment]
    sets. [wp_beam_size] is [None] when the default is kept, and
    [wp_temperature_inc_zero] says that [temperature_inc] was forced to 0. *)
Record whisper_full_params : Type := {
  wp_strategy : whisper_sampling_strategy;
  wp_max_tokens : Z;
  wp_language : string;
  wp_n_threads : Z;
  wp_audio_ctx : Z;
  wp_temperature_inc_zero : bool;
  wp_beam_size : option Z
}.

(** What one call of [whisper_full] leaves behind: its return value and the
    texts of [whisper_full_get_segment_text] for the segments
    [0 .. whisper_full_n_segments - 1] ([None] is the null pointer). *)
Record whisper_result : Type := {
  full_status : Z;
  full_segments : list (option string)
}.

Definition whisper_context : Type := whisper_full_params -> pcm -> whisper_result.

Inductive event : Type :=
| EvVadDetectSpeech (samples : pcm)
| EvWhisperFull (wparams : whisper_full_params) (samples : pcm)
| EvPrintf (text : string)
| EvFflush
| EvListDevices
| EvWhisperInit
| EvVadInit
| EvAudioInit
| EvAudioResume
| EvAudioPause
| EvVadFree
| EvWhisperFree.

(** Computations that record the events they perform. *)
Definition M (A : Type) : Type := (A * list event)%type.

Definition ret {A : Type} (a : A) : M A := (a, []).

Definition bind {A B : Type} (m : M A) (k : A -> M B) : M B :=
  let (a, t1) := m in
  let (b, t2) := k a in
  (b, t1 ++ t2).

Definition perform (e : event) : M unit := (tt, [e]).

Definition result {A : Type} (m : M A) : A := fst m.
Definition trace {A : Type} (m : M A) : list event := snd m.

Declare Scope effect_scope.
Delimit Scope effect_scope with effect.
Notation "x <- m ;; k" := (bind m (fun x => k))
  (at level 61, m at next level, right associativity) : effect_scope.
Notation "m ;; k" := (bind m (fun _ => k))
  (at level 61, right associativity) : effect_scope.
Local Open Scope effect_scope.

(* ------------------------------------------------------------------ *)
(** ** [detect_voice_activity] *)

Definition detect_voice_activity
    (vad_ctx : option whisper_vad_context)
    (audio_samples : pcm)
    (vad_threshold : float) : M bool :=
  match vad_ctx with
  | None => ret false
  | Some vad =>
      if vec_empty audio_samples then ret false
      else
        perform (EvVadDetectSpeech audio_samples) ;;
        let r := vad audio_samples in
        if negb (vad_success r) then ret false
        else
          let n_probs := vad_n_probs r in
          match vad_probs r with
          | None => ret false
          | Some probs =>
              if n_probs <=? 0 then ret false
              else
                (* probs[0 .. n_probs): reading past the array is undefined
                   in C++; the model answers false there *)
                match max_element (firstn (Z.to_nat n_probs) probs) with
                | None => ret false
                | Some max_prob => ret (float_lt vad_threshold max_prob)
                end
          end
  end.

(* ------------------------------------------------------------------ *)
(** ** Command-line parameters *)

Record whisper_params : Type := {
  n_threads : Z;
  capture_id : Z;
  max_tokens : Z;
  audio_ctx : Z;
  audio_buffer_ms : Z;
  silence_ms : Z;
  min_step_ms : Z;
  beam_size : Z;
  vad_thold : float;
  no_fallback : bool;
  use_gpu : bool;
  flash_attn : bool;
  verbose : bool;
  list_devices : bool;
  whisper_log_level : Z;
  language : string;
  model : string;
  vad_model : string
}.

(* ------------------------------------------------------------------ *)
(** ** [transcribe_audio_segment] *)

(** Whitespace: space, tab, line feed, vertical tab, form feed, carriage
    return. *)
Definition is_space (c : ascii) : bool :=
  let n := nat_of_ascii c in
  ((n =? 32) || ((9 <=? n) && (n <=? 13)))%nat.

Fixpoint drop_spaces (s : list ascii) : list ascii :=
  match s with
  | [] => []
  | c :: s' => if is_space c then drop_spaces s' else s
  end.

(** Modelled from the spec: [::trim] is declared in [common.h], which is not
    among the sources; it returns its argument "trimmed of leading/trailing
    whitespace" ([drop_spaces] from both ends). *)
Definition trim (s : string) : string :=
  string_of_list_ascii
    (rev (drop_spaces (rev (drop_spaces (list_ascii_of_string s))))).

Definition sampling_strategy (params : whisper_params) : whisper_sampling_strategy :=
  if beam_size params <=? 1 then WHISPER_SAMPLING_GREEDY
  else WHISPER_SAMPLING_BEAM_SEARCH.

Definition full_params (params : whisper_params) : whisper_full_params :=
  {| wp_strategy := sampling_strategy params;
     wp_max_tokens := max_tokens params;
     wp_language := language params;
     wp_n_threads := n_threads params;
     wp_audio_ctx := audio_ctx params;
     wp_temperature_inc_zero := no_fallback params;
     wp_beam_size :=
       match sampling_strategy params with
       | WHISPER_SAMPLING_BEAM_SEARCH => Some (beam_size params)
       | WHISPER_SAMPLING_GREEDY => None
       end |}.

(** The loop over the segments: [full_text += text] for every text that is
    neither null nor empty. *)
Definition collect_text (segments : list (option string)) : string :=
  fold_left
    (fun full_text text =>
       match text with
       | Some t => if (0 <? String.length t)%nat then (full_text ++ t)%string
                   else full_text
       | None => full_text
       end)
    segments EmptyString.

Definition transcribe_audio_segment
    (ctx : whisper_context)
    (pcmf32_segment : pcm)
    (params : whisper_params) : M string :=
  if vec_empty pcmf32_segment then ret EmptyString
  else
    let wparams := full_params params in
    perform (EvWhisperFull wparams pcmf32_segment) ;;
    let r := ctx wparams pcmf32_segment in
    if full_status r =? 0 then ret (trim (collect_text (full_segments r)))
    else ret EmptyString.

(* ------------------------------------------------------------------ *)
(** ** The main processing loop *)

Definition string_empty (s : string) : bool :=
  match s with
  | EmptyString => true
  | String _ _ => false
  end.

(** The variables of [main] that live across iterations. *)
Record loop_state : Type := {
  in_speech : bool;
  pcmf32_segment : pcm
}.

(** State at line 330: [in_speech = false], [pcmf32_segment] empty. *)
Definition initial_state : loop_state :=
  {| in_speech := false; pcmf32_segment := [] |}.

(** What one iteration receives from outside: the vector filled by
    [audio.get], the clock difference [elapsed_time_ms] (a [long long]), and
    the behaviour of the two models during this iteration. *)
Record tick_env : Type := {
  audio_get : pcm;
  elapsed_time_ms : Z;
  vad_ctx : whisper_vad_context;
  ctx : whisper_context
}.

Section Loop.

(** [WHISPER_SAMPLE_RATE] is a macro of [whisper.h]. *)
Variable WHISPER_SAMPLE_RATE : Z.

(** Lines 289 and 291. *)
Definition n_samples_buffer (params : whisper_params) : Z :=
  int32 (audio_buffer_ms params * WHISPER_SAMPLE_RATE) ÷ 1000.

Definition n_samples_vad (params : whisper_params) : Z :=
  int32 (silence_ms params * WHISPER_SAMPLE_RATE) ÷ 1000.

(** Lines 352-358: the verdict of the iteration. [pcmf32_vad] has
    [n_samples_vad] elements, all overwritten by the copy. *)
Definition vad_stage (params : whisper_params) (env : tick_env) : M bool :=
  let pcmf32_buffer := audio_get env in
  if size_t (n_samples_vad params) <=? Z.of_nat (List.length pcmf32_buffer) then
    let pcmf32_vad := lastn (Z.to_nat (n_samples_vad params)) pcmf32_buffer in
    detect_voice_activity (Some (vad_ctx env)) pcmf32_vad (vad_thold params)
  else ret false.

(** Line 362-363: the number of samples taken as new. *)
Definition new_samples (env : tick_env) : Z :=
  Z.min (size_t (int64 (elapsed_time_ms env * WHISPER_SAMPLE_RATE) ÷ 1000))
        (Z.of_nat (List.length (audio_get env))).

(** Lines 360-367. *)
Definition accumulate (st : loop_state) (env : tick_env) : loop_state :=
  if in_speech st then
    if 0 <? new_samples env then
      {| in_speech := in_speech st;
         pcmf32_segment :=
           pcmf32_segment st ++ lastn (Z.to_nat (new_samples env)) (audio_get env) |}
    else st
  else st.

(** Lines 369-380. *)
Definition start_of_speech (params : whisper_params) (voice_detected : bool)
    (st : loop_state) (env : tick_env) : loop_state :=
  if voice_detected && negb (in_speech st) then
    {| in_speech := true;
       pcmf32_segment :=
         [] ++ lastn (Z.to_nat (n_samples_vad params)) (audio_get env) |}
  else st.

(** Lines 382-400. *)
Definition end_of_speech (params : whisper_params) (voice_detected : bool)
    (st : loop_state) (env : tick_env) : M loop_state :=
  if negb voice_detected && in_speech st then
    transcribed_text <-
      transcribe_audio_segment (ctx env) (pcmf32_segment st) params ;;
    (if negb (string_empty transcribed_text) then
       perform (EvPrintf (transcribed_text ++ String "010"%char EmptyString)%string) ;;
       perform EvFflush
     else ret tt) ;;
    ret {| in_speech := false; pcmf32_segment := [] |}
  else ret st.

(** One iteration of the loop, after the event poll and the wait. *)
Definition tick (params : whisper_params) (st : loop_state) (env : tick_env)
    : M loop_state :=
  voice_detected <- vad_stage params env ;;
  let st1 := accumulate st env in
  let st2 := start_of_speech params voice_detected st1 env in
  end_of_speech params voice_detected st2 env.

(** The iterations for which [sdl_poll_events] answers true; the loop is
    left when it answers false. *)
Fixpoint main_loop (params : whisper_params) (st : loop_state)
    (ticks : list tick_env) : M loop_state :=
  match ticks with
  | [] => ret st
  | env :: rest =>
      st' <- tick params st env ;;
      main_loop params st' rest
  end.

(** Lines 330-406: the loop from its initial state, then the release of
    the collaborators and the return value of [main]. *)
Definition run_loop (params : whisper_params) (ticks : list tick_env) : M Z :=
  main_loop params initial_state ticks ;;
  perform EvAudioPause ;;
  perform EvVadFree ;;
  perform EvWhisperFree ;;
  ret 0.

End Loop.

(* ------------------------------------------------------------------ *)
(** ** Assignments to the fields of [whisper_params] *)

Definition set_n_threads (v : Z) (p : whisper_params) : whisper_params :=
  {| n_threads := v; capture_id := capture_id p; max_tokens := max_tokens p;
     audio_ctx := audio_ctx p; audio_buffer_ms := audio_buffer_ms p;
     silence_ms := silence_ms p; min_step_ms := min_step_ms p;
     beam_size := beam_size p; vad_thold := vad_thold p;
     no_fallback := no_fallback p; use_gpu := use_gpu p;
     flash_attn := flash_attn p; verbose := verbose p;
     list_devices := list_devices p;
     whisper_log_level := whisper_log_level p; language := language p;
     model := model p; vad_model := vad_model p |}.

Definition set_capture_id (v : Z) (p : whisper_params) : whisper_params :=
  {| n_threads := n_threads p; capture_id := v; max_tokens := max_tokens p;
     audio_ctx := audio_ctx p; audio_buffer_ms := audio_buffer_ms p;
     silence_ms := silence_ms p; min_step_ms := min_step_ms p;
     beam_size := beam_size p; vad_thold := vad_thold p;
     no_fallback := no_fallback p; use_gpu := use_gpu p;
     flash_attn := flash_attn p; verbose := verbose p;
     list_devices := list_devices p;
     whisper_log_level := whisper_log_level p; language := language p;
     model := model p; vad_model := vad_model p |}.

Definition set_audio_buffer_ms (v : Z) (p : whisper_params) : whisper_params :=
  {| n_threads := n_threads p; capture_id := capture_id p;
     max_tokens := max_tokens p; audio_ctx := audio_ctx p;
     audio_buffer_ms := v; silence_ms := silence_ms p;
     min_step_ms := min_step_ms p; beam_size := beam_size p;
     vad_thold := vad_thold p; no_fallback := no_fallback p;
     use_gpu := use_gpu p; flash_attn := flash_attn p; verbose := verbose p;
     list_devices := list_devices p;
     whisper_log_level := whisper_log_level p; language := language p;
     model := model p; vad_model := vad_model p |}.

Definition set_silence_ms (v : Z) (p : whisper_params) : whisper_params :=
  {| n_threads := n_threads p; capture_id := capture_id p;
     max_tokens := max_tokens p; audio_ctx := audio_ctx p;
     audio_buffer_ms := audio_buffer_ms p; silence_ms := v;
     min_step_ms := min_step_ms p; beam_size := beam_size p;
     vad_thold := vad_thold p; no_fallback := no_fallback p;
     use_gpu := use_gpu p; flash_attn := flash_attn p; verbose := verbose p;
     list_devices := list_devices p;
     whisper_log_level := whisper_log_level p; language := language p;
     model := model p; vad_model := vad_model p |}.

Definition set_min_step_ms (v : Z) (p : whisper_params) : whisper_params :=
  {| n_threads := n_threads p; capture_id := capture_id p;
     max_tokens := max_tokens p; audio_ctx := audio_ctx p;
     audio_buffer_ms := audio_buffer_ms p; silence_ms := silence_ms p;
     min_step_ms := v; beam_size := beam_size p; vad_thold := vad_thold p;
     no_fallback := no_fallback p; use_gpu := use_gpu p;
     flash_attn := flash_attn p; verbose := verbose p;
     list_devices := list_devices p;
     whisper_log_level := whisper_log_level p; language := language p;
     model := model p; vad_model := vad_model p |}.

Definition set_beam_size (v : Z) (p : whisper_params) : whisper_params :=
  {| n_threads := n_threads p; capture_id := capture_id p;
     max_tokens := max_tokens p; audio_ctx := audio_ctx p;
     audio_buffer_ms := audio_buffer_ms p; silence_ms := silence_ms p;
     min_step_ms := min_step_ms p; beam_size := v; vad_thold := vad_thold p;
     no_fallback := no_fallback p; use_gpu := use_gpu p;
     flash_attn := flash_attn p; verbose := verbose p;
     list_devices := list_devices p;
     whisper_log_level := whisper_log_level p; language := language p;
     model := model p; vad_model := vad_model p |}.

Definition set_vad_thold (v : float) (p : whisper_params) : whisper_params :=
  {| n_threads := n_threads p; capture_id := capture_id p;
     max_tokens := max_tokens p; audio_ctx := audio_ctx p;
     audio_buffer_ms := audio_buffer_ms p; silence_ms := silence_ms p;
     min_step_ms := min_step_ms p; beam_size := beam_size p; vad_thold := v;
     no_fallback := no_fallback p; use_gpu := use_gpu p;
     flash_attn := flash_attn p; verbose := verbose p;
     list_devices := list_devices p;
     whisper_log_level := whisper_log_level p; language := language p;
     model := model p; vad_model := vad_model p |}.

Definition set_use_gpu (v : bool) (p : whisper_params) : whisper_params :=
  {| n_threads := n_threads p; capture_id := capture_id p;
     max_tokens := max_tokens p; audio_ctx := audio_ctx p;
     audio_buffer_ms := audio_buffer_ms p; silence_ms := silence_ms p;
     min_step_ms := min_step_ms p; beam_size := beam_size p;
     vad_thold := vad_thold p; no_fallback := no_fallback p; use_gpu := v;
     flash_attn := flash_attn p; verbose := verbose p;
     list_devices := list_devices p;
     whisper_log_level := whisper_log_level p; language := language p;
     model := model p; vad_model := vad_model p |}.

Definition set_flash_attn (v : bool) (p : whisper_params) : whisper_params :=
  {| n_threads := n_threads p; capture_id := capture_id p;
     max_tokens := max_tokens p; audio_ctx := audio_ctx p;
     audio_buffer_ms := audio_buffer_ms p; silence_ms := silence_ms p;
     min_step_ms := min_step_ms p; beam_size := beam_size p;
     vad_thold := vad_thold p; no_fallback := no_fallback p;
     use_gpu := use_gpu p; flash_attn := v; verbose := verbose p;
     list_devices := list_devices p;
     whisper_log_level := whisper_log_level p; language := language p;
     model := model p; vad_model := vad_model p |}.

Definition set_verbose (v : bool) (p : whisper_params) : whisper_params :=
  {| n_threads := n_threads p; capture_id := capture_id p;
     max_tokens := max_tokens p; audio_ctx := audio_ctx p;
     audio_buffer_ms := audio_buffer_ms p; silence_ms := silence_ms p;
     min_step_ms := min_step_ms p; beam_size := beam_size p;
     vad_thold := vad_thold p; no_fallback := no_fallback p;
     use_gpu := use_gpu p; flash_attn := flash_attn p; verbose := v;
     list_devices := list_devices p;
     whisper_log_level := whisper_log_level p; language := language p;
     model := model p; vad_model := vad_model p |}.

Definition set_list_devices (v : bool) (p : whisper_params) : whisper_params :=
  {| n_threads := n_threads p; capture_id := capture_id p;
     max_tokens := max_tokens p; audio_ctx := audio_ctx p;
     audio_buffer_ms := audio_buffer_ms p; silence_ms := silence_ms p;
     min_step_ms := min_step_ms p; beam_size := beam_size p;
     vad_thold := vad_thold p; no_fallback := no_fallback p;
     use_gpu := use_gpu p; flash_attn := flash_attn p; verbose := verbose p;
     list_devices := v; whisper_log_level := whisper_log_level p;
     language := language p; model := model p; vad_model := vad_model p |}.

Definition set_whisper_log_level (v : Z) (p : whisper_params) : whisper_params :=
  {| n_threads := n_threads p; capture_id := capture_id p;
     max_tokens := max_tokens p; audio_ctx := audio_ctx p;
     audio_buffer_ms := audio_buffer_ms p; silence_ms := silence_ms p;
     min_step_ms := min_step_ms p; beam_size := beam_size p;
     vad_thold := vad_thold p; no_fallback := no_fallback p;
     use_gpu := use_gpu p; flash_attn := flash_attn p; verbose := verbose p;
     list_devices := list_devices p; whisper_log_level := v;
     language := language p; model := model p; vad_model := vad_model p |}.

Definition set_language (v : string) (p : whisper_params) : whisper_params :=
  {| n_threads := n_threads p; capture_id := capture_id p;
     max_tokens := max_tokens p; audio_ctx := audio_ctx p;
     audio_buffer_ms := audio_buffer_ms p; silence_ms := silence_ms p;
     min_step_ms := min_step_ms p; beam_size := beam_size p;
     vad_thold := vad_thold p; no_fallback := no_fallback p;
     use_gpu := use_gpu p; flash_attn := flash_attn p; verbose := verbose p;
     list_devices := list_devices p;
     whisper_log_level := whisper_log_level p; language := v;
     model := model p; vad_model := vad_model p |}.

Definition set_model (v : string) (p : whisper_params) : whisper_params :=
  {| n_threads := n_threads p; capture_id := capture_id p;
     max_tokens := max_tokens p; audio_ctx := audio_ctx p;
     audio_buffer_ms := audio_buffer_ms p; silence_ms := silence_ms p;
     min_step_ms := min_step_ms p; beam_size := beam_size p;
     vad_thold := vad_thold p; no_fallback := no_fallback p;
     use_gpu := use_gpu p; flash_attn := flash_attn p; verbose := verbose p;
     list_devices := list_devices p;
     whisper_log_level := whisper_log_level p; language := language p;
     model := v; vad_model := vad_model p |}.

Definition set_vad_model (v : string) (p : whisper_params) : whisper_params :=
  {| n_threads := n_threads p; capture_id := capture_id p;
     max_tokens := max_tokens p; audio_ctx := audio_ctx p;
     audio_buffer_ms := audio_buffer_ms p; silence_ms := silence_ms p;
     min_step_ms := min_step_ms p; beam_size := beam_size p;
     vad_thold := vad_thold p; no_fallback := no_fallback p;
     use_gpu := use_gpu p; flash_attn := flash_attn p; verbose := verbose p;
     list_devices := list_devices p;
     whisper_log_level := whisper_log_level p; language := language p;
     model := model p; vad_model := v |}.

(* ------------------------------------------------------------------ *)
(** ** [whisper_params_parse] and [main] *)

(** How [whisper_params_parse] ends: it returns, it calls [exit], or the
    process is terminated (an exception of [std::stoi] or [std::stof] that
    nothing catches, or the null entry [argv[argc]] read as a string). *)
Inductive parse_outcome : Type :=
| ParseReturn (ok : bool) (params : whisper_params)
| ParseExit (code : Z)
| ParseAbort.

(** One link of the [if / else if] chain over [arg]. *)
Inductive arg_action : Type :=
| ActHelp
| ActValue (assign : string -> option whisper_params)
| ActFlag (params' : whisper_params)
| ActUnknown.

(** How [main] ends: with an exit code, or terminated without one. *)
Inductive exit_status : Type :=
| Exit (code : Z)
| Terminated.

(** What a run of the program receives from outside: [argv[1 .. argc-1]],
    the success of the three initialisations, [whisper_is_multilingual], and
    the loop iterations that take place before the event poll ends the
    loop. *)
Record startup_env : Type := {
  args : list string;
  whisper_init_ok : bool;
  vad_init_ok : bool;
  audio_init_ok : bool;
  is_multilingual : bool;
  ticks : list tick_env
}.

Section Startup.

Variable WHISPER_SAMPLE_RATE : Z.

(** Library functions: [std::stoi] and [std::stof] ([None] when they
    throw), [whisper_lang_id], [std::thread::hardware_concurrency]. *)
Variable stoi : string -> option Z.
Variable stof : string -> option float.
Variable whisper_lang_id : string -> Z.
Variable hardware_concurrency : Z.

(** Lines 34-56. *)
Definition default_params : whisper_params :=
  {| n_threads := Z.min 4 (int32 hardware_concurrency);
     capture_id := -1;
     max_tokens := 128;
     audio_ctx := 0;
     audio_buffer_ms := 2000;
     silence_ms := 500;
     min_step_ms := 500;
     beam_size := 5;
     vad_thold := f32_0_5;
     no_fallback := true;
     use_gpu := true;
     flash_attn := false;
     verbose := false;
     list_devices := false;
     whisper_log_level := 4;
     language := "en"%string;
     model := "models/ggml-base.en.bin"%string;
     vad_model := "models/ggml-silero-v5.1.2.bin"%string |}.

Definition with_int (set : Z -> whisper_params -> whisper_params)
    (params : whisper_params) : arg_action :=
  ActValue (fun v => option_map (fun n => set n params) (stoi v)).

Definition with_float (set : float -> whisper_params -> whisper_params)
    (params : whisper_params) : arg_action :=
  ActValue (fun v => option_map (fun x => set x params) (stof v)).

Definition with_string (set : string -> whisper_params -> whisper_params)
    (params : whisper_params) : arg_action :=
  ActValue (fun v => Some (set v params)).

Definition arg_is (arg opt : string) : bool := String.eqb arg opt.

(** Lines 62-99. *)
Definition arg_chain (arg : string) (params : whisper_params) : arg_action :=
  if arg_is arg "-h" || arg_is arg "--help" then ActHelp
  else if arg_is arg "-t" || arg_is arg "--threads" then with_int set_n_threads params
  else if arg_is arg "-l" || arg_is arg "--language" then with_string set_language params
  else if arg_is arg "-m" || arg_is arg "--model" then with_string set_model params
  else if arg_is arg "--vad-model" then with_string set_vad_model params
  else if arg_is arg "-c" || arg_is arg "--capture" then with_int set_capture_id params
  else if arg_is arg "--audio-buffer" then with_int set_audio_buffer_ms params
  else if arg_is arg "--silence" then with_int set_silence_ms params
  else if arg_is arg "--min-step" then with_int set_min_step_ms params
  else if arg_is arg "--beam-size" then with_int set_beam_size params
  else if arg_is arg "-vth" || arg_is arg "--vad-thold" then with_float set_vad_thold params
  else if arg_is arg "--no-gpu" then ActFlag (set_use_gpu false params)
  else if arg_is arg "-fa" || arg_is arg "--flash-attn" then ActFlag (set_flash_attn true params)
  else if arg_is arg "-v" || arg_is arg "--verbose" then ActFlag (set_verbose true params)
  else if arg_is arg "--list-devices" then ActFlag (set_list_devices true params)
  else if arg_is arg "--whisper-log-level" then with_int set_whisper_log_level params
  else ActUnknown.

(** Lines 102-114. *)
Definition validate (params : whisper_params) : parse_outcome :=
  let params := set_audio_buffer_ms (Z.max (audio_buffer_ms params) 1000) params in
  let params := set_silence_ms (Z.max (silence_ms params) 500) params in
  let params := set_min_step_ms (Z.max (min_step_ms params) 100) params in
  let params :=
    set_whisper_log_level (Z.max 0 (Z.min (whisper_log_level params) 5)) params in
  if negb (arg_is (language params) "auto") && (whisper_lang_id (language params) =? -1)
  then ParseReturn false params
  else ParseReturn true params.

(** Lines 58-115; [rest] is [argv[i .. argc-1]]. *)
Fixpoint whisper_params_parse (rest : list string) (params : whisper_params)
    : parse_outcome :=
  match rest with
  | [] => validate params
  | arg :: rest' =>
      match arg_chain arg params with
      | ActHelp => ParseExit 0
      | ActUnknown => ParseExit 1
      | ActFlag params' => whisper_params_parse rest' params'
      | ActValue assign =>
          match rest' with
          | [] => ParseAbort
          | value :: rest'' =>
              match assign value with
              | None => ParseAbort
              | Some params' => whisper_params_parse rest'' params'
              end
          end
      end
  end.

(** Lines 304-311: with [verbose], a model that is not multilingual forces
    the language to ["en"]. *)
Definition processing_info (env : startup_env) (params : whisper_params)
    : whisper_params :=
  if verbose params then
    if negb (is_multilingual env) then
      if negb (arg_is (language params) "en") then set_language "en" params
      else params
    else params
  else params.

(** Lines 245-407. A vector cannot be built with a negative element count
    ([std::length_error], not caught). *)
Definition main (env : startup_env) : M exit_status :=
  match whisper_params_parse (args env) default_params with
  | ParseAbort => ret Terminated
  | ParseExit code => ret (Exit code)
  | ParseReturn false _ => ret (Exit 1)
  | ParseReturn true params =>
      if list_devices params then
        perform EvListDevices ;;
        ret (Exit 0)
      else
        perform EvWhisperInit ;;
        if negb (whisper_init_ok env) then ret (Exit 2)
        else
          perform EvVadInit ;;
          if negb (vad_init_ok env) then
            perform EvWhisperFree ;;
            ret (Exit 3)
          else if (n_samples_buffer WHISPER_SAMPLE_RATE params <? 0)
                  || (n_samples_vad WHISPER_SAMPLE_RATE params <? 0)
          then ret Terminated
          else
            perform EvAudioInit ;;
            if negb (audio_init_ok env) then ret (Exit 1)
            else
              perform EvAudioResume ;;
              let params := processing_info env params in
              code <- run_loop WHISPER_SAMPLE_RATE params (ticks env) ;;
              ret (Exit code)
  end.

End Startup.

(* ------------------------------------------------------------------ *)
(** ** Vocabulary of the properties *)

(** The detector reports failure: the call fails, or it leaves no
    probabilities behind. *)
Definition vad_failed (r : vad_result) : bool :=
  negb (vad_success r)
  || (vad_n_probs r <=? 0)
  || match vad_probs r with
     | None => true
     | Some _ => false
     end.

Definition is_whisper_full (e : event) : bool :=
  match e with
  | EvWhisperFull _ _ => true
  | _ => false
  end.

Definition is_stdout (e : event) : bool :=
  match e with
  | EvPrintf _ | EvFflush => true
  | _ => false
  end.

(** Number of invocations of the transcription model in a trace. *)
Definition transcriptions (t : list event) : nat :=
  List.length (filter is_whisper_full t).

(** What a trace does to standard output. *)
Definition stdout_events (t : list event) : list event := filter is_stdout t.

(** The session state is Silence with nothing buffered, or Speech. *)
Definition silence_is_empty (st : loop_state) : Prop :=
  in_speech st = false -> pcmf32_segment st = [].

(** The number of samples of each segment handed to the transcription model. *)
Definition transcribed_lengths (t : list event) : list Z :=
  flat_map (fun e =>
              match e with
              | EvWhisperFull _ samples => [Z.of_nat (List.length samples)]
              | _ => []
              end) t.

(** The fetched window holds fewer samples than the VAD window. *)
Definition short_window (WHISPER_SAMPLE_RATE : Z) (params : whisper_params)
    (env : tick_env) : Prop :=
  Z.of_nat (List.length (audio_get env)) < n_samples_vad WHISPER_SAMPLE_RATE params.

(** The verdict of a tick is voice. *)
Definition voice_tick (WHISPER_SAMPLE_RATE : Z) (params : whisper_params)
    (env : tick_env) : Prop :=
  result (vad_stage WHISPER_SAMPLE_RATE params env) = true.

(** The clock difference is not negative and its product with the sample
    rate fits a [long long]. *)
Definition elapsed_in_range (WHISPER_SAMPLE_RATE : Z) (env : tick_env) : Prop :=
  0 <= elapsed_time_ms env * WHISPER_SAMPLE_RATE < 2 ^ 63.

(** min(elapsed_time_ms * sample_rate / 1000, length of the window). *)
Definition capped_new_count (WHISPER_SAMPLE_RATE : Z) (env : tick_env) : nat :=
  Z.to_nat (Z.min (elapsed_time_ms env * WHISPER_SAMPLE_RATE / 1000)
                  (Z.of_nat (List.length (audio_get env)))).

(* ------------------------------------------------------------------ *)
(** ** Emitted lines *)

Definition newline : string := String "010" EmptyString.

(** The text has neither leading nor trailing whitespace. *)
Definition trimmed (t : string) : Prop :=
  (forall c rest, t = String c rest -> is_space c = false)
  /\ (forall front c,
        t = (front ++ String c EmptyString)%string -> is_space c = false).

(** What a line on standard output looks like in the trace: the text and a
    newline are printed, and the stream is flushed next. *)
Definition emitted_line (t : string) : list event :=
  [EvPrintf (t ++ newline)%string; EvFflush].

(** The text of the utterance a tick completes, if it completes one: the
    tick starts in Speech and its verdict is silence. *)
Definition completed_utterance (WHISPER_SAMPLE_RATE : Z) (params : whisper_params)
    (st : loop_state) (env : tick_env) : option string :=
  if negb (result (vad_stage WHISPER_SAMPLE_RATE params env)) && in_speech st then
    Some (result (transcribe_audio_segment
                    (ctx env)
                    (pcmf32_segment (accumulate WHISPER_SAMPLE_RATE st env))
                    params))
  else None.

(** The lines owed for an utterance: one when its text is not empty. *)
Definition lines_of (utterance : option string) : list event :=
  match utterance with
  | Some t => if string_empty t then [] else emitted_line t
  | None => []
  end.

(** The utterances completed by a run of ticks, in order. *)
Fixpoint completed_utterances (WHISPER_SAMPLE_RATE : Z) (params : whisper_params)
    (st : loop_state) (ticks : list tick_env) : list string :=
  match ticks with
  | [] => []
  | env :: rest =>
      match completed_utterance WHISPER_SAMPLE_RATE params st env with
      | Some t => [t]
      | None => []
      end
      ++ completed_utterances WHISPER_SAMPLE_RATE params
           (result (tick WHISPER_SAMPLE_RATE params st env)) rest
  end.

(* ------------------------------------------------------------------ *)
(** ** Concrete inputs *)

(** A detector that succeeds and leaves the probabilities [probs]. *)
Definition vad_yielding (probs : list float) : whisper_vad_context :=
  fun _ =>
    {| vad_success := true;
       vad_n_probs := Z.of_nat (List.length probs);
       vad_probs := Some probs |}.

Definition example_params : whisper_params := default_params 4.

(** A whisper context that recognises [text] in whatever it is given. *)
Definition recognising (text : string) : whisper_context :=
  fun _ _ => {| full_status := 0; full_segments := [Some text] |}.

(** A detector whose call fails. *)
Definition failing_vad : whisper_vad_context :=
  fun _ => {| vad_success := false; vad_n_probs := 0; vad_probs := None |}.

(** Half a second of audio at 16 kHz. *)
Definition half_second : pcm := repeat f32_0_4 (Z.to_nat 8000).

(** A tick that fetches [buffer] 500 ms after the previous one, with a
    detector that leaves [probs]. *)
Definition example_tick (buffer : pcm) (probs : list float) : tick_env :=
  {| audio_get := buffer;
     elapsed_time_ms := 500;
     vad_ctx := vad_yielding probs;
     ctx := recognising " hello world " |}.

Definition voice_example : tick_env := example_tick half_second [f32_0_4; f32_0_6].
Definition silence_example : tick_env := example_tick half_second [f32_0_4].
Definition short_example : tick_env := example_tick [f32_0_4; f32_0_6] [f32_0_6].

(** One second of audio at 16 kHz, fetched 500 ms after the previous tick
    with a detector that hears voice. *)
Definition one_second_voice : tick_env :=
  example_tick (repeat f32_0_6 (Z.to_nat 16000)) [f32_0_6].

(** Half a second of audio on which the detector fails. *)
Definition failing_example : tick_env :=
  {| audio_get := half_second;
     elapsed_time_ms := 500;
     vad_ctx := failing_vad;
     ctx := recognising " hello world " |}.

(** A configuration with a VAD window of 1 ms (16 samples at 16 kHz), shorter
    than [whisper_params_parse] lets through, to keep whole runs small. *)
Definition small_params : whisper_params := set_silence_ms 1 example_params.

(** A tick that fetches 32 samples 1 ms after the previous one. *)
Definition small_tick (probs : list float) (text : string) : tick_env :=
  {| audio_get := repeat f32_0_4 32;
     elapsed_time_ms := 1;
     vad_ctx := vad_yielding probs;
     ctx := recognising text |}.

Definition small_voice : tick_env := small_tick [f32_0_4; f32_0_6] " hello world ".
Definition small_silence : tick_env := small_tick [f32_0_4] " hello world ".
Definition small_blank : tick_env := small_tick [f32_0_4] "   ".

(** A run of the program on the arguments [args] in which the inputs of
    numeric options are never well-formed, every language but ["en"] is
    unknown, and the loop is left at once. *)
Definition example_main (args : list string)
    (whisper_ok vad_ok audio_ok : bool) : M exit_status :=
  main 16000
    (fun _ => None) (fun _ => None)
    (fun lang => if String.eqb lang "en" then 0 else -1)
    4
    {| args := args;
       whisper_init_ok := whisper_ok;
       vad_init_ok := vad_ok;
       audio_init_ok := audio_ok;
       is_multilingual := false;
       ticks := [] |}.

(* ------------------------------------------------------------------ *)
(** ** Proof automation *)

(** Case analysis on the signs of floats. *)
Ltac split_signs :=
  repeat match goal with s : bool |- _ => destruct s end.

(** The order of two exponents and two mantissas, three floats at a time. *)
Ltac order_cases ea eb ec ma mb mc :=
  destruct (Z.compare_spec ea eb), (Z.compare_spec eb ec), (Z.compare_spec ea ec);
  try discriminate; try reflexivity; try lia; auto;
  rewrite ?Pos.compare_cont_spec; simpl;
  destruct (Pos.compare_spec ma mb), (Pos.compare_spec mb mc),
           (Pos.compare_spec ma mc);
  simpl; try discriminate; try reflexivity; try lia; auto.

(** Closes the goals about a run of [main] whose trace is explicit. *)
Ltac settle :=
  cbv [result trace bind perform ret fst snd app In];
  repeat match goal with
         | |- _ /\ _ => split
         | |- _ <-> _ => split
         | |- _ -> _ => intro
         end;
  repeat match goal with
         | H : _ /\ _ |- _ => destruct H
         | H : _ \/ _ |- _ => destruct H
         | H : exists _, _ |- _ => destruct H
         | H : False |- _ => destruct H
         end;
  try discriminate; try congruence; eauto 7.

(* ------------------------------------------------------------------ *)
(** ** Further vocabulary: what a run of the loop does *)

Definition is_vad_detect (e : event) : bool :=
  match e with
  | EvVadDetectSpeech _ => true
  | _ => false
  end.

Definition is_printf (e : event) : bool :=
  match e with
  | EvPrintf _ => true
  | _ => false
  end.

(** The events a loop iteration can perform. *)
Definition is_tick_event (e : event) : bool :=
  match e with
  | EvVadDetectSpeech _ | EvWhisperFull _ _ | EvPrintf _ | EvFflush => true
  | _ => false
  end.

(** Number of calls of the detector, and of lines printed, in a trace. *)
Definition vad_calls (t : list event) : nat := List.length (filter is_vad_detect t).
Definition printed_lines (t : list event) : nat := List.length (filter is_printf t).

(** The number of samples of each window handed to the detector. *)
Definition vad_window_lengths (t : list event) : list Z :=
  flat_map (fun e =>
              match e with
              | EvVadDetectSpeech samples => [Z.of_nat (List.length samples)]
              | _ => []
              end) t.

(** The verdict of a tick is silence. *)
Definition silence_tick (WHISPER_SAMPLE_RATE : Z) (params : whisper_params)
    (env : tick_env) : Prop :=
  result (vad_stage WHISPER_SAMPLE_RATE params env) = false.

(** In state Speech the buffer holds at least the lookback window. *)
Definition speech_holds_lookback (WHISPER_SAMPLE_RATE : Z) (params : whisper_params)
    (st : loop_state) : Prop :=
  in_speech st = true ->
  n_samples_vad WHISPER_SAMPLE_RATE params
  <= Z.of_nat (List.length (pcmf32_segment st)).

(** A tick on which [whisper_full] returns this status for whatever it is
    given. *)
Definition small_failing (status : Z) : tick_env :=
  {| audio_get := repeat f32_0_4 32;
     elapsed_time_ms := 1;
     vad_ctx := vad_yielding [f32_0_4];
     ctx := fun _ _ => {| full_status := status;
                          full_segments := [Some "hello"%string] |} |}.

(** A configuration whose VAD window (3 s) is longer than the audio buffer
    (2 s). *)
Definition long_silence_params : whisper_params :=
  set_silence_ms 3000 example_params.


(** The text of a segment, a null text counting as empty. *)
Definition text_or_empty (text : option string) : string :=
  match text with
  | Some t => t
  | None => EmptyString
  end.

(** The probability is a number. *)
Definition not_nan (p : float) : Prop := p <> S754_nan.


(* ------------------------------------------------------------------ *)
(** ** Further vocabulary: the command line *)

(** The bounds that the parameter validation establishes. *)
Definition clamped (params : whisper_params) : Prop :=
  1000 <= audio_buffer_ms params
  /\ 500 <= silence_ms params
  /\ 100 <= min_step_ms params
  /\ 0 <= whisper_log_level params <= 5.

(** The options that read the next argument as their value. *)
Definition value_options : list string :=
  ["-t"; "--threads"; "-l"; "--language"; "-m"; "--model"; "--vad-model";
   "-c"; "--capture"; "--audio-buffer"; "--silence"; "--min-step";
   "--beam-size"; "-vth"; "--vad-thold"; "--whisper-log-level"]%string.

(** The options that stand alone. *)
Definition flag_options : list string :=
  ["--no-gpu"; "-fa"; "--flash-attn"; "-v"; "--verbose"; "--list-devices"]%string.

(** [std::stoi] on the decimal numerals used in the examples. *)
Definition example_stoi (s : string) : option Z :=
  if String.eqb s "2" then Some 2
  else if String.eqb s "8" then Some 8
  else if String.eqb s "50" then Some 50
  else if String.eqb s "9" then Some 9
  else None.

(** [whisper_lang_id] knowing English and German only. *)
Definition example_lang_id (lang : string) : Z :=
  if String.eqb lang "en" then 0
  else if String.eqb lang "de" then 1
  else -1.

Definition example_parse (args : list string) : parse_outcome :=
  whisper_params_parse example_stoi (fun _ => None) example_lang_id args
    example_params.


(* ------------------------------------------------------------------ *)
(** ** The other functions of [transcribe.cpp] *)

(** What the log callback and the device listing do, as events of their
    own: writes to [stderr], calls of SDL, and the lines of the listing
    (the arguments of [printf ("%d: %s\n", i, name)]). *)
Inductive io_event : Type :=
| EvFputsStderr (text : string)
| EvFflushStderr
| EvSdlInit
| EvSdlGetNumAudioDevices
| EvSdlGetAudioDeviceName (i : Z)
| EvPrintDevice (i : Z) (name : string)
| EvSdlQuit.

(** Lines 24-31, with the global [g_whisper_log_level] as an argument.
    [level] is the [ggml_log_level] of the message. *)
Definition whisper_log_callback_filtered
    (g_whisper_log_level : Z) (level : Z) (text : string) : list io_event :=
  if g_whisper_log_level <=? level then [EvFputsStderr text; EvFflushStderr]
  else [].

(** What SDL answers during a device listing: the return value of
    [SDL_Init], of [SDL_GetNumAudioDevices], and the name of each device
    ([None] is the null pointer). *)
Record sdl_env : Type := {
  sdl_init : Z;
  sdl_num_devices : Z;
  sdl_device_name : Z -> option string
}.

(** Lines 233-240: the iterations [i .. num_devices - 1] of the loop, [count]
    of them. *)
Fixpoint list_devices_from (sdl : sdl_env) (i : Z) (count : nat) : list io_event :=
  match count with
  | O => []
  | S count' =>
      EvSdlGetAudioDeviceName i
      :: EvPrintDevice i
           match sdl_device_name sdl i with
           | Some device_name => device_name
           | None => "Unknown Device"%string
           end
      :: list_devices_from sdl (i + 1) count'
  end.

(** Lines 217-243. *)
Definition list_audio_devices (sdl : sdl_env) : list io_event :=
  EvSdlInit
  :: if sdl_init sdl <? 0 then []
     else
       EvSdlGetNumAudioDevices
       :: if sdl_num_devices sdl <? 0 then [EvSdlQuit]
          else
            list_devices_from sdl 0 (Z.to_nat (sdl_num_devices sdl))
            ++ [EvSdlQuit].

(** Lines 338-343: the time the loop sleeps before it fetches audio, [None]
    when it does not sleep. [time_since_last] is a [long long]. *)
Definition sleep_duration (params : whisper_params) (time_since_last : Z) : Z :=
  int64 (min_step_ms params - time_since_last).

Definition cadence_sleep (params : whisper_params) (time_since_last : Z)
    : option Z :=
  if 0 <? sleep_duration params time_since_last
  then Some (sleep_duration params time_since_last)
  else None.

(** ** Vocabulary for them *)

Definition is_sdl_quit (e : io_event) : bool :=
  match e with
  | EvSdlQuit => true
  | _ => false
  end.

(** The lines of a device listing: index and name. *)
Definition printed_devices (t : list io_event) : list (Z * string) :=
  flat_map (fun e =>
              match e with
              | EvPrintDevice i name => [(i, name)]
              | _ => []
              end) t.

(** The name printed for device [i]. *)
Definition shown_name (sdl : sdl_env) (i : Z) : string :=
  match sdl_device_name sdl i with
  | Some device_name => device_name
  | None => "Unknown Device"%string
  end.

(** Two devices, the second one without a name. *)
Definition example_sdl : sdl_env :=
  {| sdl_init := 0;
     sdl_num_devices := 2;
     sdl_device_name :=
       fun i => if i =? 0 then Some "Built-in Microphone"%string else None |}.


(* ------------------------------------------------------------------ *)
(** ** Further vocabulary: new samples, texts and start-up *)

(** The number of samples that lines 362-365 append in state Speech. *)
Definition new_count (WHISPER_SAMPLE_RATE : Z) (env : tick_env) : nat :=
  Z.to_nat (new_samples WHISPER_SAMPLE_RATE env).

(** Half a second of voice fetched when the clock reads one millisecond less
    than at the previous fetch. *)
Definition backwards_clock_example : tick_env :=
  {| audio_get := half_second;
     elapsed_time_ms := -1;
     vad_ctx := vad_yielding [f32_0_4; f32_0_6];
     ctx := recognising " hello world " |}.


(** The text of one call of [whisper_full]: the texts of its segments, one
    after the other, trimmed of leading and trailing whitespace; no text when
    the call fails. *)
Definition transcription_text (r : whisper_result) : string :=
  if full_status r =? 0 then
    trim (fold_right String.append EmptyString
                     (map text_or_empty (full_segments r)))
  else EmptyString.

(** The text of the utterance that a tick completes, if it completes one (it
    starts in Speech and its verdict is silence): the transcription of the
    buffer with the new samples of the tick, no text for an empty buffer. *)
Definition utterance_text (WHISPER_SAMPLE_RATE : Z) (params : whisper_params)
    (st : loop_state) (env : tick_env) : option string :=
  if negb (result (vad_stage WHISPER_SAMPLE_RATE params env)) && in_speech st then
    let segment := pcmf32_segment (accumulate WHISPER_SAMPLE_RATE st env) in
    Some (if vec_empty segment then EmptyString
          else transcription_text (ctx env (full_params params) segment))
  else None.

(** The texts of the utterances that a run of ticks completes, in order. *)
Fixpoint utterance_texts (WHISPER_SAMPLE_RATE : Z) (params : whisper_params)
    (st : loop_state) (ticks : list tick_env) : list string :=
  match ticks with
  | [] => []
  | env :: rest =>
      match utterance_text WHISPER_SAMPLE_RATE params st env with
      | Some t => [t]
      | None => []
      end
      ++ utterance_texts WHISPER_SAMPLE_RATE params
           (result (tick WHISPER_SAMPLE_RATE params st env)) rest
  end.




(* ================================================================== *)
(** * Properties *)

(* ------------------------------------------------------------------ *)
(** ** Traces *)

Lemma result_bind {A B : Type} (m : M A) (k : A -> M B) :
  result (bind m k) = result (k (result m)).
Proof.
  unfold result, bind. destruct m as [a t1]. simpl.
  destruct (k a) as [b t2]. reflexivity.
Qed.

Lemma trace_bind {A B : Type} (m : M A) (k : A -> M B) :
  trace (bind m k) = trace m ++ trace (k (result m)).
Proof.
  unfold trace, result, bind. destruct m as [a t1]. simpl.
  destruct (k a) as [b t2]. reflexivity.
Qed.

Lemma bind_ret_l {A B : Type} (a : A) (k : A -> M B) : bind (ret a) k = k a.
Proof. unfold bind, ret. destruct (k a). reflexivity. Qed.

(* ------------------------------------------------------------------ *)
(** ** Machine integers *)

Lemma int32_range (z : Z) : - 2 ^ 31 <= int32 z < 2 ^ 31.
Proof.
  unfold int32, wrap_signed.
  change (2 ^ (32 - 1)) with (2 ^ 31).
  pose proof (Z.mod_pos_bound (z + 2 ^ 31) (2 ^ 32) eq_refl). lia.
Qed.

Lemma int64_small (z : Z) : - 2 ^ 63 <= z < 2 ^ 63 -> int64 z = z.
Proof.
  intros H. unfold int64, wrap_signed.
  change (2 ^ (64 - 1)) with (2 ^ 63).
  rewrite Z.mod_small; lia.
Qed.

Lemma size_t_small (z : Z) : 0 <= z < 2 ^ 64 -> size_t z = z.
Proof. intros H. unfold size_t. apply Z.mod_small. exact H. Qed.

(* ------------------------------------------------------------------ *)
(** ** Vectors *)

Lemma lastn_length {A : Type} (n : nat) (v : list A) :
  List.length (lastn n v) = Nat.min n (List.length v).
Proof. unfold lastn. rewrite length_skipn. lia. Qed.

Lemma lastn_suffix {A : Type} (n : nat) (v : list A) :
  exists older, v = older ++ lastn n v.
Proof.
  exists (firstn (List.length v - n) v). unfold lastn.
  symmetry. apply firstn_skipn.
Qed.

(* ------------------------------------------------------------------ *)
(** ** Order of floats and [max_element] *)

Lemma float_lt_trans (a b c : float) :
  float_lt a b = true -> float_lt b c = true -> float_lt a c = true.
Proof.
  unfold float_lt, SFltb, SFcompare.
  destruct a as [sa|sa| |sa ma ea], b as [sb|sb| |sb mb eb],
           c as [sc|sc| |sc mc ec];
    split_signs; try discriminate; try reflexivity;
    order_cases ea eb ec ma mb mc.
Qed.

(** Between two numbers in strict order, a third one that is not NaN is
    above the first or below the second. *)
Lemma float_lt_cotrans (a b c : float) :
  b <> S754_nan ->
  float_lt a c = true -> float_lt a b = true \/ float_lt b c = true.
Proof.
  unfold float_lt, SFltb, SFcompare. intros Hb.
  destruct a as [sa|sa| |sa ma ea], b as [sb|sb| |sb mb eb],
           c as [sc|sc| |sc mc ec];
    split_signs; try discriminate; try congruence; auto;
    order_cases ea eb ec ma mb mc.
Qed.

Lemma float_lt_nan_l (x : float) : float_lt S754_nan x = false.
Proof. reflexivity. Qed.

Lemma max_element_from_nan (rest : list float) :
  max_element_from S754_nan rest = S754_nan.
Proof.
  induction rest as [|x rest IH]; simpl.
  - reflexivity.
  - exact IH.
Qed.

Lemma max_element_from_In (largest : float) (rest : list float) :
  In (max_element_from largest rest) (largest :: rest).
Proof.
  revert largest. induction rest as [|x rest IH]; intros largest; simpl.
  - left. reflexivity.
  - destruct (IH (if float_lt largest x then x else largest)) as [H | H].
    + destruct (float_lt largest x); [right; left | left]; exact H.
    + right. right. exact H.
Qed.

(** No element of the range exceeds the one [max_element] picks. *)
Lemma max_element_from_upper (largest : float) (rest : list float) (x : float) :
  In x (largest :: rest) -> float_lt (max_element_from largest rest) x = false.
Proof.
  revert largest x. induction rest as [|y rest IH]; intros largest x Hin.
  - simpl. destruct Hin as [<- | []].
    destruct (float_lt largest largest) eqn:E; [|reflexivity].
    unfold float_lt, SFltb, SFcompare in E.
    destruct largest as [s|s| |s m e]; split_signs; try discriminate;
      rewrite Z.compare_refl, ?Pos.compare_cont_refl in E; discriminate.
  - simpl.
    set (m := max_element_from (if float_lt largest y then y else largest) rest).
    assert (Hnew : forall z,
               In z ((if float_lt largest y then y else largest) :: rest) ->
               float_lt m z = false) by (intros z Hz; apply IH; exact Hz).
    destruct Hin as [<- | [<- | Hin]].
    + (* the previous candidate *)
      destruct (float_lt largest y) eqn:E.
      * destruct (float_lt m largest) eqn:E'; [|reflexivity].
        rewrite <- (Hnew y (or_introl eq_refl)).
        symmetry. apply float_lt_trans with largest; assumption.
      * apply Hnew. left. reflexivity.
    + (* the element just visited *)
      destruct (float_lt largest y) eqn:E.
      * apply Hnew. left. reflexivity.
      * destruct (float_lt m y) eqn:E'; [|reflexivity].
        assert (Hl : float_lt m largest = false) by (apply Hnew; left; reflexivity).
        destruct largest as [s|s| |s ml el] eqn:El.
        1, 2, 4: destruct (float_lt_cotrans m largest y) as [H | H];
          subst largest; try discriminate; try congruence.
        subst m. rewrite max_element_from_nan in E'.
        rewrite float_lt_nan_l in E'. discriminate.
    + apply Hnew. right. exact Hin.
Qed.

(* ------------------------------------------------------------------ *)
(** ** The VAD decision *)

Lemma detect_voice_activity_yielding
    (first : float) (rest : list float) (s : float) (samples : pcm)
    (vad_threshold : float) :
  detect_voice_activity (Some (vad_yielding (first :: rest))) (s :: samples)
                        vad_threshold
  = (float_lt vad_threshold (max_element_from first rest),
     [EvVadDetectSpeech (s :: samples)]).
Proof.
  unfold detect_voice_activity, vad_yielding.
  cbn [vec_empty vad_success vad_n_probs vad_probs negb].
  replace (Z.of_nat (List.length (first :: rest)) <=? 0) with false
    by (symmetry; apply Z.leb_gt; simpl List.length; lia).
  rewrite Nat2Z.id, firstn_all. reflexivity.
Qed.

(** C4. The decision takes the maximum of the probabilities the detector
    leaves (an element of the array that no other element exceeds) and
    compares it to the threshold with a strict greater-than. For the
    probabilities [0.4, 0.6] it is true at threshold 0.5 and false at
    threshold 0.6. *)
Theorem vad_decision_is_strict_maximum
    (first : float) (rest : list float) (s : float) (samples : pcm)
    (vad_threshold : float) :
  let probs := first :: rest in
  let max_prob := max_element_from first rest in
  (In max_prob probs /\ forall p, In p probs -> float_lt max_prob p = false)
  /\ result (detect_voice_activity (Some (vad_yielding probs)) (s :: samples)
                                   vad_threshold)
     = float_lt vad_threshold max_prob
  /\ result (detect_voice_activity (Some (vad_yielding [f32_0_4; f32_0_6]))
                                   (s :: samples) f32_0_5) = true
  /\ result (detect_voice_activity (Some (vad_yielding [f32_0_4; f32_0_6]))
                                   (s :: samples) f32_0_6) = false.
Proof.
  intros probs max_prob.
  split; [split | split; [| split]].
  - apply max_element_from_In.
  - intros p Hp. apply max_element_from_upper. exact Hp.
  - unfold probs. rewrite detect_voice_activity_yielding. reflexivity.
  - rewrite detect_voice_activity_yielding. reflexivity.
  - rewrite detect_voice_activity_yielding. reflexivity.
Qed.

(** C6. On a window of length zero the decision is false and the detector is
    not invoked: the call leaves no event. *)
Theorem empty_window_is_silence
    (vad : option whisper_vad_context) (vad_threshold : float) :
  detect_voice_activity vad [] vad_threshold = (false, []).
Proof. destruct vad; reflexivity. Qed.

Lemma detect_voice_activity_failed
    (vad : whisper_vad_context) (audio_samples : pcm) (vad_threshold : float) :
  vad_failed (vad audio_samples) = true ->
  result (detect_voice_activity (Some vad) audio_samples vad_threshold) = false.
Proof.
  unfold vad_failed, detect_voice_activity. intros H.
  destruct audio_samples as [|s samples]; [reflexivity|].
  cbn [vec_empty]. rewrite result_bind.
  destruct (vad (s :: samples)) as [ok n probs]; simpl in *.
  destruct ok; [|reflexivity]. simpl in *.
  destruct probs as [probs|]; [|reflexivity].
  destruct (n <=? 0); [reflexivity|]. discriminate.
Qed.

(** A tick whose verdict is silence: the segment stages that follow. *)
Lemma tick_silence
    (WHISPER_SAMPLE_RATE : Z) (params : whisper_params) (st : loop_state)
    (env : tick_env) :
  result (vad_stage WHISPER_SAMPLE_RATE params env) = false ->
  tick WHISPER_SAMPLE_RATE params st env
  = (vad_stage WHISPER_SAMPLE_RATE params env ;;
     end_of_speech params false (accumulate WHISPER_SAMPLE_RATE st env) env).
Proof.
  intros H. unfold tick.
  destruct (vad_stage WHISPER_SAMPLE_RATE params env) as [v t].
  simpl in H. subst v. reflexivity.
Qed.

(** C7. When the detector reports failure on the window of a tick (the call
    fails, or no probabilities are left), the VAD decision returns false, the
    verdict of the tick is silence and the tick goes on as a tick of silence;
    the loop then takes the next iteration from the state the tick leaves. *)
Theorem detector_failure_is_silence
    (WHISPER_SAMPLE_RATE : Z) (params : whisper_params) (st : loop_state)
    (env : tick_env) (rest : list tick_env) :
  vad_failed
    (vad_ctx env
       (lastn (Z.to_nat (n_samples_vad WHISPER_SAMPLE_RATE params)) (audio_get env)))
  = true ->
  result
    (detect_voice_activity
       (Some (vad_ctx env))
       (lastn (Z.to_nat (n_samples_vad WHISPER_SAMPLE_RATE params)) (audio_get env))
       (vad_thold params))
  = false
  /\ result (vad_stage WHISPER_SAMPLE_RATE params env) = false
  /\ tick WHISPER_SAMPLE_RATE params st env
     = (vad_stage WHISPER_SAMPLE_RATE params env ;;
        end_of_speech params false (accumulate WHISPER_SAMPLE_RATE st env) env)
  /\ main_loop WHISPER_SAMPLE_RATE params st (env :: rest)
     = (st' <- tick WHISPER_SAMPLE_RATE params st env ;;
        main_loop WHISPER_SAMPLE_RATE params st' rest).
Proof.
  intros Hfail.
  pose proof (detect_voice_activity_failed _ _ (vad_thold params) Hfail) as Hd.
  assert (Hv : result (vad_stage WHISPER_SAMPLE_RATE params env) = false).
  { unfold vad_stage.
    destruct (size_t (n_samples_vad WHISPER_SAMPLE_RATE params)
              <=? Z.of_nat (List.length (audio_get env))); [|reflexivity].
    exact Hd. }
  split; [exact Hd|]. split; [exact Hv|]. split; [|reflexivity].
  apply tick_silence. exact Hv.
Qed.

(** A detector whose call fails, on half a second of audio in state Silence:
    the decision is false and the tick changes nothing. *)
Lemma detector_failure_is_silence_witness :
  vad_failed
    (vad_ctx failing_example
       (lastn (Z.to_nat (n_samples_vad 16000 example_params))
              (audio_get failing_example))) = true
  /\ result (vad_stage 16000 example_params failing_example) = false
  /\ tick 16000 example_params initial_state failing_example
     = (initial_state, [EvVadDetectSpeech half_second]).
Proof.
  assert (H : vad_failed
                (vad_ctx failing_example
                   (lastn (Z.to_nat (n_samples_vad 16000 example_params))
                          (audio_get failing_example))) = true)
    by reflexivity.
  destruct (detector_failure_is_silence 16000 example_params initial_state
              failing_example [] H) as [_ [Hv [Ht _]]].
  split; [exact H|]. split; [exact Hv|].
  rewrite Ht. vm_compute. reflexivity.
Defined.

(* ------------------------------------------------------------------ *)
(** ** The stages of a tick *)

Lemma n_samples_vad_upper (WHISPER_SAMPLE_RATE : Z) (params : whisper_params) :
  n_samples_vad WHISPER_SAMPLE_RATE params < 2 ^ 31.
Proof.
  unfold n_samples_vad.
  pose proof (int32_range (silence_ms params * WHISPER_SAMPLE_RATE)) as [_ Hhi].
  set (a := int32 (silence_ms params * WHISPER_SAMPLE_RATE)) in *.
  assert (H : a ÷ 1000 <= (2 ^ 31 - 1) ÷ 1000) by (apply Z.quot_le_mono; lia).
  change ((2 ^ 31 - 1) ÷ 1000) with 2147483 in H. lia.
Qed.

Lemma size_t_n_samples_vad (WHISPER_SAMPLE_RATE : Z) (params : whisper_params) :
  0 <= n_samples_vad WHISPER_SAMPLE_RATE params ->
  size_t (n_samples_vad WHISPER_SAMPLE_RATE params)
  = n_samples_vad WHISPER_SAMPLE_RATE params.
Proof.
  intros H. apply size_t_small.
  pose proof (n_samples_vad_upper WHISPER_SAMPLE_RATE params). lia.
Qed.

(** The detector is called at most once, and nothing else happens. *)
Lemma detect_voice_activity_trace
    (vad : option whisper_vad_context) (audio_samples : pcm) (vad_threshold : float) :
  trace (detect_voice_activity vad audio_samples vad_threshold) = []
  \/ trace (detect_voice_activity vad audio_samples vad_threshold)
     = [EvVadDetectSpeech audio_samples].
Proof.
  unfold detect_voice_activity.
  destruct vad as [vad|]; [|left; reflexivity].
  destruct (vec_empty audio_samples); [left; reflexivity|].
  right. rewrite trace_bind. simpl.
  destruct (negb (vad_success (vad audio_samples))); [reflexivity|].
  destruct (vad_probs (vad audio_samples)); [|reflexivity].
  destruct (vad_n_probs (vad audio_samples) <=? 0); [reflexivity|].
  destruct (max_element _); reflexivity.
Qed.

Lemma vad_stage_trace
    (WHISPER_SAMPLE_RATE : Z) (params : whisper_params) (env : tick_env) :
  transcriptions (trace (vad_stage WHISPER_SAMPLE_RATE params env)) = 0%nat
  /\ stdout_events (trace (vad_stage WHISPER_SAMPLE_RATE params env)) = [].
Proof.
  unfold vad_stage.
  destruct (size_t (n_samples_vad WHISPER_SAMPLE_RATE params)
            <=? Z.of_nat (List.length (audio_get env))); [|split; reflexivity].
  destruct (detect_voice_activity_trace
              (Some (vad_ctx env))
              (lastn (Z.to_nat (n_samples_vad WHISPER_SAMPLE_RATE params))
                     (audio_get env))
              (vad_thold params)) as [H | H];
    rewrite H; split; reflexivity.
Qed.

(** A short window: the detector is not consulted. *)
Lemma vad_stage_short
    (WHISPER_SAMPLE_RATE : Z) (params : whisper_params) (env : tick_env) :
  short_window WHISPER_SAMPLE_RATE params env ->
  vad_stage WHISPER_SAMPLE_RATE params env = (false, []).
Proof.
  unfold short_window, vad_stage. intros H.
  rewrite size_t_n_samples_vad by lia.
  replace (n_samples_vad WHISPER_SAMPLE_RATE params
           <=? Z.of_nat (List.length (audio_get env))) with false
    by (symmetry; apply Z.leb_gt; exact H).
  reflexivity.
Qed.

(** A voice verdict: the window was long enough. *)
Lemma voice_tick_window
    (WHISPER_SAMPLE_RATE : Z) (params : whisper_params) (env : tick_env) :
  voice_tick WHISPER_SAMPLE_RATE params env ->
  0 <= n_samples_vad WHISPER_SAMPLE_RATE params ->
  n_samples_vad WHISPER_SAMPLE_RATE params <= Z.of_nat (List.length (audio_get env)).
Proof.
  unfold voice_tick, vad_stage. intros Hv Hn.
  rewrite size_t_n_samples_vad in Hv by exact Hn.
  destruct (Z.leb_spec (n_samples_vad WHISPER_SAMPLE_RATE params)
                       (Z.of_nat (List.length (audio_get env)))) as [H | H].
  - exact H.
  - discriminate.
Qed.

Lemma accumulate_silence
    (WHISPER_SAMPLE_RATE : Z) (st : loop_state) (env : tick_env) :
  in_speech st = false -> accumulate WHISPER_SAMPLE_RATE st env = st.
Proof. unfold accumulate. intros ->. reflexivity. Qed.

Lemma accumulate_in_speech
    (WHISPER_SAMPLE_RATE : Z) (st : loop_state) (env : tick_env) :
  in_speech (accumulate WHISPER_SAMPLE_RATE st env) = in_speech st.
Proof.
  unfold accumulate. destruct (in_speech st) eqn:E; [|exact E].
  destruct (0 <? new_samples WHISPER_SAMPLE_RATE env); [reflexivity | exact E].
Qed.

Lemma end_of_speech_silence_state
    (params : whisper_params) (st : loop_state) (env : tick_env) :
  in_speech st = false -> end_of_speech params false st env = ret st.
Proof. unfold end_of_speech. intros ->. reflexivity. Qed.

(** The end of a speech segment always leaves Silence and an empty buffer. *)
Lemma end_of_speech_finalises
    (params : whisper_params) (st : loop_state) (env : tick_env) :
  in_speech st = true ->
  result (end_of_speech params false st env)
  = {| in_speech := false; pcmf32_segment := [] |}.
Proof.
  unfold end_of_speech. intros ->. cbn [negb andb].
  rewrite !result_bind. reflexivity.
Qed.

(** A tick whose verdict is voice. *)
Lemma tick_voice
    (WHISPER_SAMPLE_RATE : Z) (params : whisper_params) (st : loop_state)
    (env : tick_env) :
  voice_tick WHISPER_SAMPLE_RATE params env ->
  tick WHISPER_SAMPLE_RATE params st env
  = (vad_stage WHISPER_SAMPLE_RATE params env ;;
     ret (start_of_speech WHISPER_SAMPLE_RATE params true
            (accumulate WHISPER_SAMPLE_RATE st env) env)).
Proof.
  unfold voice_tick. intros H. unfold tick.
  destruct (vad_stage WHISPER_SAMPLE_RATE params env) as [v t].
  simpl in H. subst v. reflexivity.
Qed.

(* ------------------------------------------------------------------ *)
(** ** Short windows *)

(** C1 as stated does not hold. After one tick of voice the state is Speech
    with half a second buffered; the next tick fetches two samples only, and
    it is not a no-op: the state returns to Silence, the buffer is emptied,
    the transcription model is invoked once and a line is printed. *)
Lemma short_window_while_speaking_finalises :
  let st := result (tick 16000 example_params initial_state voice_example) in
  let after := tick 16000 example_params st short_example in
  short_window 16000 example_params short_example
  /\ in_speech st = true
  /\ Z.of_nat (List.length (pcmf32_segment st)) = 8000
  /\ in_speech (result after) = false
  /\ pcmf32_segment (result after) = []
  /\ transcriptions (trace after) = 1%nat
  /\ stdout_events (trace after)
     = [EvPrintf ("hello world" ++ String "010" EmptyString)%string; EvFflush].
Proof.
  cbv zeta. repeat apply conj; vm_compute; reflexivity.
Qed.

(** C1, amended. On a tick whose window is shorter than the VAD window the
    detector is not consulted and the verdict is silence. In state Silence
    the tick is a no-op: state and buffer unchanged, no event. In state
    Speech the tick is the end of the segment, as on any verdict of silence:
    the new samples are appended, the segment is handed to transcription and
    the state returns to Silence with an empty buffer. *)
Theorem short_window_is_silence
    (WHISPER_SAMPLE_RATE : Z) (params : whisper_params) (st : loop_state)
    (env : tick_env) :
  short_window WHISPER_SAMPLE_RATE params env ->
  vad_stage WHISPER_SAMPLE_RATE params env = (false, [])
  /\ (in_speech st = false ->
      tick WHISPER_SAMPLE_RATE params st env = (st, []))
  /\ (in_speech st = true ->
      tick WHISPER_SAMPLE_RATE params st env
      = end_of_speech params false (accumulate WHISPER_SAMPLE_RATE st env) env
      /\ result (tick WHISPER_SAMPLE_RATE params st env)
         = {| in_speech := false; pcmf32_segment := [] |}).
Proof.
  intros Hshort.
  pose proof (vad_stage_short WHISPER_SAMPLE_RATE params env Hshort) as Hvad.
  assert (Htick : tick WHISPER_SAMPLE_RATE params st env
                  = end_of_speech params false
                      (accumulate WHISPER_SAMPLE_RATE st env) env).
  { rewrite tick_silence by (rewrite Hvad; reflexivity).
    rewrite Hvad. apply (bind_ret_l false). }
  split; [exact Hvad|]. split.
  - intros Hsil. rewrite Htick.
    rewrite accumulate_silence by exact Hsil.
    apply end_of_speech_silence_state. exact Hsil.
  - intros Hsp. split; [exact Htick|].
    rewrite Htick. apply end_of_speech_finalises.
    rewrite accumulate_in_speech. exact Hsp.
Qed.

(** Two samples fetched in state Silence: the tick is a no-op. *)
Lemma short_window_is_silence_witness :
  short_window 16000 example_params short_example
  /\ vad_stage 16000 example_params short_example = (false, [])
  /\ tick 16000 example_params initial_state short_example = (initial_state, []).
Proof.
  assert (H : short_window 16000 example_params short_example)
    by (vm_compute; reflexivity).
  destruct (short_window_is_silence 16000 example_params initial_state
              short_example H) as [Hvad [Hsil _]].
  split; [exact H|]. split; [exact Hvad|].
  apply Hsil. reflexivity.
Defined.

(* ------------------------------------------------------------------ *)
(** ** Start of a segment *)

(** C3. On a tick with a voice verdict in state Silence, whatever the buffer
    held before, the buffer after the tick is exactly the last
    [n_samples_vad] samples of the fetched window. ([n_samples_vad] is not
    negative in the loop: [main] builds a vector of that many elements.) *)
Theorem speech_start_seeds_lookback
    (WHISPER_SAMPLE_RATE : Z) (params : whisper_params) (st : loop_state)
    (env : tick_env) :
  in_speech st = false ->
  voice_tick WHISPER_SAMPLE_RATE params env ->
  0 <= n_samples_vad WHISPER_SAMPLE_RATE params ->
  let st' := result (tick WHISPER_SAMPLE_RATE params st env) in
  in_speech st' = true
  /\ pcmf32_segment st'
     = lastn (Z.to_nat (n_samples_vad WHISPER_SAMPLE_RATE params)) (audio_get env)
  /\ Z.of_nat (List.length (pcmf32_segment st'))
     = n_samples_vad WHISPER_SAMPLE_RATE params
  /\ (exists older, audio_get env = older ++ pcmf32_segment st')
  /\ transcriptions (trace (tick WHISPER_SAMPLE_RATE params st env)) = 0%nat.
Proof.
  intros Hsil Hvoice Hn st'.
  assert (Hst' : st' = {| in_speech := true;
                          pcmf32_segment :=
                            lastn (Z.to_nat (n_samples_vad WHISPER_SAMPLE_RATE params))
                                  (audio_get env) |}).
  { unfold st'. rewrite tick_voice by exact Hvoice.
    rewrite result_bind. unfold ret, result. cbn [fst].
    rewrite accumulate_silence by exact Hsil.
    unfold start_of_speech. rewrite Hsil. reflexivity. }
  rewrite Hst'. cbn [in_speech pcmf32_segment].
  split; [reflexivity|]. split; [reflexivity|]. split; [|split].
  - rewrite lastn_length.
    pose proof (voice_tick_window _ _ _ Hvoice Hn). lia.
  - apply lastn_suffix.
  - rewrite tick_voice by exact Hvoice.
    rewrite trace_bind. unfold ret, trace at 2. cbn [snd].
    rewrite app_nil_r. apply vad_stage_trace.
Qed.

(** A tick of voice in state Silence with two stale samples in the buffer:
    the buffer becomes the last 8000 samples of the window. *)
Lemma speech_start_seeds_lookback_witness :
  let st := {| in_speech := false; pcmf32_segment := [f32_0_5; f32_0_6] |} in
  let st' := result (tick 16000 example_params st voice_example) in
  in_speech st' = true
  /\ pcmf32_segment st' = lastn (Z.to_nat 8000) half_second
  /\ Z.of_nat (List.length (pcmf32_segment st')) = 8000.
Proof.
  cbv zeta.
  destruct (speech_start_seeds_lookback 16000 example_params
              {| in_speech := false; pcmf32_segment := [f32_0_5; f32_0_6] |}
              voice_example)
    as [H1 [H2 [H3 _]]].
  - reflexivity.
  - vm_compute. reflexivity.
  - vm_compute. discriminate.
  - split; [exact H1|]. split; [exact H2 | exact H3].
Defined.

(* ------------------------------------------------------------------ *)
(** ** The buffer is empty in Silence *)

Lemma tick_preserves_silence_is_empty
    (WHISPER_SAMPLE_RATE : Z) (params : whisper_params) (st : loop_state)
    (env : tick_env) :
  silence_is_empty st ->
  silence_is_empty (result (tick WHISPER_SAMPLE_RATE params st env)).
Proof.
  unfold silence_is_empty. intros Hinv.
  destruct (result (vad_stage WHISPER_SAMPLE_RATE params env)) eqn:Hv.
  - rewrite tick_voice by exact Hv. rewrite result_bind.
    unfold ret, result at 1 2. cbn [fst].
    unfold start_of_speech. rewrite accumulate_in_speech.
    destruct (in_speech st) eqn:Hs; cbn [negb andb in_speech].
    + rewrite accumulate_in_speech. congruence.
    + discriminate.
  - rewrite tick_silence by exact Hv. rewrite result_bind.
    destruct (in_speech st) eqn:Hs.
    + rewrite end_of_speech_finalises
        by (rewrite accumulate_in_speech; exact Hs).
      reflexivity.
    + rewrite accumulate_silence by exact Hs.
      rewrite end_of_speech_silence_state by exact Hs.
      unfold ret, result. cbn [fst]. rewrite Hs. exact Hinv.
Qed.

Lemma main_loop_preserves_silence_is_empty
    (WHISPER_SAMPLE_RATE : Z) (params : whisper_params) (ticks : list tick_env) :
  forall st,
    silence_is_empty st ->
    silence_is_empty (result (main_loop WHISPER_SAMPLE_RATE params st ticks)).
Proof.
  induction ticks as [|env rest IH]; intros st Hinv.
  - exact Hinv.
  - cbn [main_loop]. rewrite result_bind. apply IH.
    apply tick_preserves_silence_is_empty. exact Hinv.
Qed.

(** A tick that ends in Silence has emptied the buffer or has touched
    nothing. *)
Lemma tick_to_silence
    (WHISPER_SAMPLE_RATE : Z) (params : whisper_params) (st : loop_state)
    (env : tick_env) :
  in_speech (result (tick WHISPER_SAMPLE_RATE params st env)) = false ->
  (in_speech st = true
   /\ pcmf32_segment (result (tick WHISPER_SAMPLE_RATE params st env)) = [])
  \/ (in_speech st = false
      /\ result (tick WHISPER_SAMPLE_RATE params st env) = st).
Proof.
  destruct (result (vad_stage WHISPER_SAMPLE_RATE params env)) eqn:Hv.
  - rewrite tick_voice by exact Hv. rewrite result_bind.
    unfold ret, result at 1 2 3. cbn [fst].
    unfold start_of_speech. rewrite accumulate_in_speech.
    destruct (in_speech st) eqn:Hs; cbn [negb andb in_speech].
    + rewrite accumulate_in_speech. congruence.
    + discriminate.
  - rewrite tick_silence by exact Hv. rewrite result_bind.
    destruct (in_speech st) eqn:Hs.
    + rewrite end_of_speech_finalises
        by (rewrite accumulate_in_speech; exact Hs).
      intros _. left. split; reflexivity.
    + rewrite accumulate_silence by exact Hs.
      rewrite end_of_speech_silence_state by exact Hs.
      intros _. right. split; reflexivity.
Qed.

(** C10. In state Silence the segment buffer is empty: this holds at startup,
    every tick preserves it, and so it holds after any number of ticks. A
    tick that leaves the state in Silence either ended a segment, and then
    emptied the buffer, or started in Silence and touched nothing. *)
Theorem silence_has_empty_buffer
    (WHISPER_SAMPLE_RATE : Z) (params : whisper_params) :
  silence_is_empty initial_state
  /\ (forall st env,
        silence_is_empty st ->
        silence_is_empty (result (tick WHISPER_SAMPLE_RATE params st env)))
  /\ (forall ticks,
        silence_is_empty
          (result (main_loop WHISPER_SAMPLE_RATE params initial_state ticks)))
  /\ (forall st env,
        in_speech (result (tick WHISPER_SAMPLE_RATE params st env)) = false ->
        (in_speech st = true
         /\ pcmf32_segment (result (tick WHISPER_SAMPLE_RATE params st env)) = [])
        \/ (in_speech st = false
            /\ result (tick WHISPER_SAMPLE_RATE params st env) = st)).
Proof.
  assert (H0 : silence_is_empty initial_state) by (intros _; reflexivity).
  split; [exact H0|]. split; [|split].
  - intros st env. apply tick_preserves_silence_is_empty.
  - intros ticks. apply main_loop_preserves_silence_is_empty. exact H0.
  - intros st env. apply tick_to_silence.
Qed.

(* ------------------------------------------------------------------ *)
(** ** Ticks of voice *)

Lemma transcriptions_app (t1 t2 : list event) :
  transcriptions (t1 ++ t2) = (transcriptions t1 + transcriptions t2)%nat.
Proof. unfold transcriptions. rewrite filter_app, length_app. reflexivity. Qed.

Lemma stdout_events_app (t1 t2 : list event) :
  stdout_events (t1 ++ t2) = stdout_events t1 ++ stdout_events t2.
Proof. unfold stdout_events. apply filter_app. Qed.

Lemma tick_voice_keeps_speaking
    (WHISPER_SAMPLE_RATE : Z) (params : whisper_params) (st : loop_state)
    (env : tick_env) :
  voice_tick WHISPER_SAMPLE_RATE params env ->
  in_speech (result (tick WHISPER_SAMPLE_RATE params st env)) = true
  /\ transcriptions (trace (tick WHISPER_SAMPLE_RATE params st env)) = 0%nat.
Proof.
  intros Hv. rewrite tick_voice by exact Hv. split.
  - rewrite result_bind. unfold ret, result. cbn [fst].
    unfold start_of_speech. rewrite accumulate_in_speech.
    destruct (in_speech st) eqn:Hs; cbn [negb andb in_speech].
    + rewrite accumulate_in_speech. exact Hs.
    + reflexivity.
  - rewrite trace_bind, transcriptions_app.
    rewrite (proj1 (vad_stage_trace WHISPER_SAMPLE_RATE params env)).
    reflexivity.
Qed.

Lemma main_loop_voice
    (WHISPER_SAMPLE_RATE : Z) (params : whisper_params) (ticks : list tick_env) :
  Forall (voice_tick WHISPER_SAMPLE_RATE params) ticks ->
  forall st,
    transcriptions (trace (main_loop WHISPER_SAMPLE_RATE params st ticks)) = 0%nat
    /\ (ticks <> [] ->
        in_speech (result (main_loop WHISPER_SAMPLE_RATE params st ticks)) = true).
Proof.
  induction 1 as [|env rest Hv Hrest IH]; intros st.
  - split; [reflexivity | congruence].
  - cbn [main_loop].
    destruct (tick_voice_keeps_speaking WHISPER_SAMPLE_RATE params st env Hv)
      as [Hsp Htr].
    destruct (IH (result (tick WHISPER_SAMPLE_RATE params st env))) as [IHtr IHsp].
    split.
    + rewrite trace_bind, transcriptions_app, Htr, IHtr. reflexivity.
    + intros _. rewrite result_bind.
      destruct rest as [|env' rest'].
      * exact Hsp.
      * apply IHsp. discriminate.
Qed.

Lemma run_loop_trace
    (WHISPER_SAMPLE_RATE : Z) (params : whisper_params) (ticks : list tick_env) :
  trace (run_loop WHISPER_SAMPLE_RATE params ticks)
  = trace (main_loop WHISPER_SAMPLE_RATE params initial_state ticks)
    ++ [EvAudioPause; EvVadFree; EvWhisperFree].
Proof. unfold run_loop. rewrite trace_bind. reflexivity. Qed.

Lemma run_loop_result
    (WHISPER_SAMPLE_RATE : Z) (params : whisper_params) (ticks : list tick_env) :
  result (run_loop WHISPER_SAMPLE_RATE params ticks) = 0.
Proof. unfold run_loop. rewrite result_bind. reflexivity. Qed.

(** C5. What follows the loop only releases the collaborators and returns:
    whatever state the loop is left in, a run invokes the transcription model
    as often as its ticks did, and a segment still open is never handed over.
    When every tick of the run has a voice verdict, the loop is left in state
    Speech and the whole run invokes the transcription model zero times. *)
Theorem open_segment_is_dropped_at_exit
    (WHISPER_SAMPLE_RATE : Z) (params : whisper_params) (ticks : list tick_env) :
  (trace (run_loop WHISPER_SAMPLE_RATE params ticks)
   = trace (main_loop WHISPER_SAMPLE_RATE params initial_state ticks)
     ++ [EvAudioPause; EvVadFree; EvWhisperFree]
   /\ transcriptions (trace (run_loop WHISPER_SAMPLE_RATE params ticks))
      = transcriptions
          (trace (main_loop WHISPER_SAMPLE_RATE params initial_state ticks))
   /\ result (run_loop WHISPER_SAMPLE_RATE params ticks) = 0)
  /\ (Forall (voice_tick WHISPER_SAMPLE_RATE params) ticks ->
      ticks <> [] ->
      in_speech (result (main_loop WHISPER_SAMPLE_RATE params initial_state ticks))
      = true
      /\ transcriptions (trace (run_loop WHISPER_SAMPLE_RATE params ticks)) = 0%nat).
Proof.
  assert (Hsame : transcriptions (trace (run_loop WHISPER_SAMPLE_RATE params ticks))
                  = transcriptions
                      (trace (main_loop WHISPER_SAMPLE_RATE params initial_state
                                        ticks))).
  { rewrite run_loop_trace, transcriptions_app. cbn. lia. }
  split.
  - split; [apply run_loop_trace|]. split; [exact Hsame | apply run_loop_result].
  - intros Hvoice Hne.
    destruct (main_loop_voice WHISPER_SAMPLE_RATE params ticks Hvoice initial_state)
      as [Htr Hsp].
    split; [apply Hsp; exact Hne|].
    rewrite Hsame. exact Htr.
Qed.

(** The run [voice, voice, voice]: no transcription, and the loop is left in
    state Speech. *)
Lemma open_segment_is_dropped_at_exit_witness :
  let ticks := [voice_example; voice_example; voice_example] in
  Forall (voice_tick 16000 example_params) ticks
  /\ transcriptions (trace (run_loop 16000 example_params ticks)) = 0%nat
  /\ in_speech (result (main_loop 16000 example_params initial_state ticks)) = true.
Proof.
  cbv zeta.
  assert (Hv : voice_tick 16000 example_params voice_example)
    by (vm_compute; reflexivity).
  assert (H : Forall (voice_tick 16000 example_params)
                     [voice_example; voice_example; voice_example])
    by (repeat constructor; exact Hv).
  destruct (open_segment_is_dropped_at_exit 16000 example_params
              [voice_example; voice_example; voice_example])
    as [_ Hall].
  destruct (Hall H) as [Hsp Htr].
  - discriminate.
  - split; [exact H|]. split; [exact Htr | exact Hsp].
Defined.

(* ------------------------------------------------------------------ *)
(** ** Samples appended while in Speech *)

Lemma lastn_0 {A : Type} (v : list A) : lastn 0 v = [].
Proof. unfold lastn. rewrite Nat.sub_0_r. apply skipn_all. Qed.

Lemma new_samples_in_range (WHISPER_SAMPLE_RATE : Z) (env : tick_env) :
  elapsed_in_range WHISPER_SAMPLE_RATE env ->
  new_samples WHISPER_SAMPLE_RATE env
  = Z.min (elapsed_time_ms env * WHISPER_SAMPLE_RATE / 1000)
          (Z.of_nat (List.length (audio_get env))).
Proof.
  unfold elapsed_in_range, new_samples. intros H.
  rewrite int64_small by lia.
  rewrite Z.quot_div_nonneg by lia.
  rewrite size_t_small; [reflexivity|].
  split.
  - apply Z.div_pos; lia.
  - apply Z.le_lt_trans with (elapsed_time_ms env * WHISPER_SAMPLE_RATE).
    + apply Z.div_le_upper_bound; lia.
    + lia.
Qed.

Lemma accumulate_appends
    (WHISPER_SAMPLE_RATE : Z) (st : loop_state) (env : tick_env) :
  in_speech st = true ->
  elapsed_in_range WHISPER_SAMPLE_RATE env ->
  accumulate WHISPER_SAMPLE_RATE st env
  = {| in_speech := true;
       pcmf32_segment :=
         pcmf32_segment st
         ++ lastn (capped_new_count WHISPER_SAMPLE_RATE env) (audio_get env) |}.
Proof.
  intros Hs Hr. unfold accumulate, capped_new_count. rewrite Hs.
  rewrite <- (new_samples_in_range _ _ Hr).
  destruct (Z.ltb_spec 0 (new_samples WHISPER_SAMPLE_RATE env)) as [H | H].
  - reflexivity.
  - replace (Z.to_nat (new_samples WHISPER_SAMPLE_RATE env)) with 0%nat by lia.
    rewrite lastn_0, app_nil_r. destruct st; simpl in *. congruence.
Qed.

Lemma capped_new_count_length (WHISPER_SAMPLE_RATE : Z) (env : tick_env) :
  List.length (lastn (capped_new_count WHISPER_SAMPLE_RATE env) (audio_get env))
  = capped_new_count WHISPER_SAMPLE_RATE env.
Proof. rewrite lastn_length. unfold capped_new_count. lia. Qed.

(** In state Speech the start-of-speech stage does nothing. *)
Lemma tick_in_speech
    (WHISPER_SAMPLE_RATE : Z) (params : whisper_params) (st : loop_state)
    (env : tick_env) :
  in_speech st = true ->
  tick WHISPER_SAMPLE_RATE params st env
  = (voice_detected <- vad_stage WHISPER_SAMPLE_RATE params env ;;
     end_of_speech params voice_detected
       (accumulate WHISPER_SAMPLE_RATE st env) env).
Proof.
  intros Hs. unfold tick, start_of_speech.
  rewrite accumulate_in_speech, Hs. cbn [negb].
  destruct (vad_stage WHISPER_SAMPLE_RATE params env) as [v t].
  unfold bind. rewrite andb_false_r. reflexivity.
Qed.

Lemma main_loop_appends
    (WHISPER_SAMPLE_RATE : Z) (params : whisper_params) (ticks : list tick_env) :
  Forall (fun env => voice_tick WHISPER_SAMPLE_RATE params env
                     /\ elapsed_in_range WHISPER_SAMPLE_RATE env) ticks ->
  forall st,
    in_speech st = true ->
    result (main_loop WHISPER_SAMPLE_RATE params st ticks)
    = {| in_speech := true;
         pcmf32_segment :=
           pcmf32_segment st
           ++ List.concat (map (fun env =>
                             lastn (capped_new_count WHISPER_SAMPLE_RATE env)
                                   (audio_get env)) ticks) |}.
Proof.
  induction 1 as [|env rest [Hv Hr] Hrest IH]; intros st Hs.
  - cbn [main_loop map List.concat]. rewrite app_nil_r.
    destruct st; simpl in *. subst. reflexivity.
  - cbn [main_loop map List.concat]. rewrite result_bind.
    assert (Ht : result (tick WHISPER_SAMPLE_RATE params st env)
                 = accumulate WHISPER_SAMPLE_RATE st env).
    { rewrite tick_in_speech by exact Hs. rewrite result_bind.
      unfold voice_tick in Hv. rewrite Hv. reflexivity. }
    rewrite Ht, IH by (rewrite accumulate_in_speech; exact Hs).
    rewrite accumulate_appends by assumption.
    cbn [pcmf32_segment]. rewrite app_assoc. reflexivity.
Qed.

(** When the clock difference is not negative and its product with the
    sample rate fits a [long long]: on a tick in state Speech, whatever its
    verdict, the samples appended to the segment are the last
    min(elapsed_time_ms * sample_rate / 1000, window length) samples of the
    fetched window, and it is this segment that continues or is handed to
    transcription. Over ticks that stay in Speech the buffer grows by
    exactly the sum of these capped counts. *)
Theorem speech_ticks_append_capped_counts
    (WHISPER_SAMPLE_RATE : Z) (params : whisper_params) (st : loop_state)
    (env : tick_env) (ticks : list tick_env) :
  in_speech st = true ->
  elapsed_in_range WHISPER_SAMPLE_RATE env ->
  Forall (fun env => voice_tick WHISPER_SAMPLE_RATE params env
                     /\ elapsed_in_range WHISPER_SAMPLE_RATE env) ticks ->
  let new_tail env :=
    lastn (capped_new_count WHISPER_SAMPLE_RATE env) (audio_get env) in
  (pcmf32_segment (accumulate WHISPER_SAMPLE_RATE st env)
   = pcmf32_segment st ++ new_tail env
   /\ Z.of_nat (List.length (new_tail env))
      = Z.min (elapsed_time_ms env * WHISPER_SAMPLE_RATE / 1000)
              (Z.of_nat (List.length (audio_get env)))
   /\ tick WHISPER_SAMPLE_RATE params st env
      = (voice_detected <- vad_stage WHISPER_SAMPLE_RATE params env ;;
         end_of_speech params voice_detected
           (accumulate WHISPER_SAMPLE_RATE st env) env))
  /\ (let st' := result (main_loop WHISPER_SAMPLE_RATE params st ticks) in
      in_speech st' = true
      /\ pcmf32_segment st' = pcmf32_segment st ++ List.concat (map new_tail ticks)
      /\ List.length (pcmf32_segment st')
         = (List.length (pcmf32_segment st)
            + list_sum (map (capped_new_count WHISPER_SAMPLE_RATE) ticks))%nat).
Proof.
  intros Hs Hr Hticks new_tail. split.
  - split; [|split].
    + rewrite accumulate_appends by assumption. reflexivity.
    + unfold new_tail. rewrite capped_new_count_length.
      unfold capped_new_count. unfold elapsed_in_range in Hr.
      assert (0 <= elapsed_time_ms env * WHISPER_SAMPLE_RATE / 1000)
        by (apply Z.div_pos; lia).
      lia.
    + apply tick_in_speech. exact Hs.
  - cbv zeta. rewrite main_loop_appends by assumption.
    cbn [in_speech pcmf32_segment].
    split; [reflexivity|]. split; [reflexivity|].
    rewrite length_app. f_equal.
    clear. induction ticks as [|e rest IH].
    + reflexivity.
    + cbn [map List.concat list_sum]. rewrite length_app, IH.
      rewrite capped_new_count_length. reflexivity.
Qed.

(** Ticks that fetch one second of audio 500 ms apart: each appends 8000
    samples, not the 16000 of the window. *)
Lemma speech_ticks_append_capped_counts_witness :
  let st := {| in_speech := true; pcmf32_segment := half_second |} in
  let ticks := [one_second_voice; one_second_voice] in
  elapsed_in_range 16000 one_second_voice
  /\ Forall (fun env => voice_tick 16000 example_params env
                        /\ elapsed_in_range 16000 env) ticks
  /\ Z.of_nat (List.length (pcmf32_segment (accumulate 16000 st one_second_voice)))
     = 16000
  /\ Z.of_nat (List.length
                 (pcmf32_segment (result (main_loop 16000 example_params st ticks))))
     = 24000.
Proof.
  cbv zeta.
  assert (Hr : elapsed_in_range 16000 one_second_voice)
    by (vm_compute; split; [discriminate | reflexivity]).
  assert (Hv : voice_tick 16000 example_params one_second_voice)
    by (vm_compute; reflexivity).
  assert (H : Forall (fun env => voice_tick 16000 example_params env
                                 /\ elapsed_in_range 16000 env)
                     [one_second_voice; one_second_voice])
    by (repeat (apply Forall_cons; [split; assumption|]); apply Forall_nil).
  destruct (speech_ticks_append_capped_counts 16000 example_params
              {| in_speech := true; pcmf32_segment := half_second |}
              one_second_voice [one_second_voice; one_second_voice]
              eq_refl Hr H)
    as [[Hacc _] [_ [_ Hlen]]].
  split; [exact Hr|]. split; [exact H|]. split.
  - rewrite Hacc. vm_compute. reflexivity.
  - rewrite Hlen. vm_compute. reflexivity.
Defined.

(* ------------------------------------------------------------------ *)
(** ** Trimmed text *)

Lemma drop_spaces_head (s : list ascii) (c : ascii) (rest : list ascii) :
  drop_spaces s = c :: rest -> is_space c = false.
Proof.
  induction s as [|a s IH]; simpl.
  - discriminate.
  - destruct (is_space a) eqn:E.
    + exact IH.
    + intros H. injection H as <- _. exact E.
Qed.

Lemma drop_spaces_suffix (s : list ascii) :
  exists spaces, s = spaces ++ drop_spaces s.
Proof.
  induction s as [|a s [spaces IH]]; simpl.
  - exists []. reflexivity.
  - destruct (is_space a).
    + exists (a :: spaces). simpl. f_equal. exact IH.
    + exists []. reflexivity.
Qed.

Lemma list_ascii_of_string_app (a b : string) :
  list_ascii_of_string (a ++ b)
  = list_ascii_of_string a ++ list_ascii_of_string b.
Proof.
  induction a as [|c a IH]; simpl.
  - reflexivity.
  - f_equal. exact IH.
Qed.

Lemma trimmed_empty : trimmed EmptyString.
Proof.
  split.
  - discriminate.
  - intros [|a front] c H; discriminate.
Qed.

Lemma trim_trimmed (s : string) : trimmed (trim s).
Proof.
  unfold trim.
  set (l := drop_spaces (list_ascii_of_string s)).
  set (r := drop_spaces (rev l)).
  split.
  - (* the first character is the first character of [l] *)
    intros c rest H.
    apply (f_equal list_ascii_of_string) in H.
    rewrite list_ascii_of_string_of_list_ascii in H. simpl in H.
    destruct (drop_spaces_suffix (rev l)) as [spaces Hsp]. fold r in Hsp.
    apply (f_equal (@rev ascii)) in Hsp.
    rewrite rev_involutive, rev_app_distr, H in Hsp. simpl in Hsp.
    apply (drop_spaces_head (list_ascii_of_string s) c
             (list_ascii_of_string rest ++ rev spaces)).
    exact Hsp.
  - (* the last character is the first character of [r] *)
    intros front c H.
    apply (f_equal list_ascii_of_string) in H.
    rewrite list_ascii_of_string_of_list_ascii, list_ascii_of_string_app in H.
    simpl in H.
    apply (f_equal (@rev ascii)) in H.
    rewrite rev_involutive, rev_app_distr in H. simpl in H.
    apply (drop_spaces_head (rev l) c (rev (list_ascii_of_string front))).
    exact H.
Qed.

Lemma transcribe_audio_segment_trimmed
    (ctx : whisper_context) (segment : pcm) (params : whisper_params) :
  trimmed (result (transcribe_audio_segment ctx segment params)).
Proof.
  unfold transcribe_audio_segment.
  destruct (vec_empty segment); [apply trimmed_empty|].
  rewrite result_bind.
  destruct (full_status _ =? 0); [apply trim_trimmed | apply trimmed_empty].
Qed.

Lemma transcribe_audio_segment_stdout
    (ctx : whisper_context) (segment : pcm) (params : whisper_params) :
  stdout_events (trace (transcribe_audio_segment ctx segment params)) = [].
Proof.
  unfold transcribe_audio_segment.
  destruct (vec_empty segment); [reflexivity|].
  rewrite trace_bind.
  destruct (full_status _ =? 0); reflexivity.
Qed.

(* ------------------------------------------------------------------ *)
(** ** Emitted lines *)

(** The trace of a tick ends with the lines owed for the utterance it
    completes; nothing before them touches standard output. *)
Lemma tick_stdout
    (WHISPER_SAMPLE_RATE : Z) (params : whisper_params) (st : loop_state)
    (env : tick_env) :
  exists before,
    stdout_events before = []
    /\ trace (tick WHISPER_SAMPLE_RATE params st env)
       = before ++ lines_of (completed_utterance WHISPER_SAMPLE_RATE params st env).
Proof.
  unfold completed_utterance.
  destruct (result (vad_stage WHISPER_SAMPLE_RATE params env)) eqn:Hv.
  - (* voice *)
    exists (trace (vad_stage WHISPER_SAMPLE_RATE params env)).
    split; [apply vad_stage_trace|].
    rewrite tick_voice by exact Hv. rewrite trace_bind. reflexivity.
  - (* silence *)
    rewrite tick_silence by exact Hv. rewrite trace_bind, ?Hv.
    cbn [negb andb].
    destruct (in_speech st) eqn:Hs.
    + unfold end_of_speech. rewrite accumulate_in_speech, Hs. cbn [negb andb].
      set (segment := pcmf32_segment (accumulate WHISPER_SAMPLE_RATE st env)).
      exists (trace (vad_stage WHISPER_SAMPLE_RATE params env)
              ++ trace (transcribe_audio_segment (ctx env) segment params)).
      split.
      * rewrite stdout_events_app, transcribe_audio_segment_stdout.
        rewrite (proj2 (vad_stage_trace WHISPER_SAMPLE_RATE params env)).
        reflexivity.
      * rewrite !trace_bind, <- app_assoc. do 2 f_equal.
        unfold lines_of, emitted_line, newline.
        destruct (string_empty _); cbn [negb]; rewrite ?trace_bind;
          cbn; reflexivity.
    + exists (trace (vad_stage WHISPER_SAMPLE_RATE params env)).
      split; [apply vad_stage_trace|].
      rewrite accumulate_silence by exact Hs.
      rewrite end_of_speech_silence_state by exact Hs. reflexivity.
Qed.

Lemma lines_of_stdout (utterance : option string) :
  stdout_events (lines_of utterance) = lines_of utterance.
Proof.
  destruct utterance as [t|]; [|reflexivity].
  simpl. destruct (string_empty t); reflexivity.
Qed.

Lemma completed_utterance_trimmed
    (WHISPER_SAMPLE_RATE : Z) (params : whisper_params) (st : loop_state)
    (env : tick_env) (t : string) :
  completed_utterance WHISPER_SAMPLE_RATE params st env = Some t -> trimmed t.
Proof.
  unfold completed_utterance.
  destruct (negb _ && in_speech st); [|discriminate].
  intros H. injection H as <-. apply transcribe_audio_segment_trimmed.
Qed.

Lemma main_loop_stdout
    (WHISPER_SAMPLE_RATE : Z) (params : whisper_params) (ticks : list tick_env) :
  forall st,
    stdout_events (trace (main_loop WHISPER_SAMPLE_RATE params st ticks))
    = flat_map emitted_line
        (filter (fun t => negb (string_empty t))
                (completed_utterances WHISPER_SAMPLE_RATE params st ticks)).
Proof.
  induction ticks as [|env rest IH]; intros st.
  - reflexivity.
  - cbn [main_loop completed_utterances].
    rewrite trace_bind, stdout_events_app, IH, filter_app, flat_map_app.
    f_equal.
    destruct (tick_stdout WHISPER_SAMPLE_RATE params st env) as [before [Hb Ht]].
    rewrite Ht, stdout_events_app, Hb, lines_of_stdout.
    destruct (completed_utterance WHISPER_SAMPLE_RATE params st env) as [t|];
      [|reflexivity].
    simpl. destruct (string_empty t); reflexivity.
Qed.

Lemma completed_utterances_trimmed
    (WHISPER_SAMPLE_RATE : Z) (params : whisper_params) (ticks : list tick_env) :
  forall st,
    Forall trimmed (completed_utterances WHISPER_SAMPLE_RATE params st ticks).
Proof.
  induction ticks as [|env rest IH]; intros st.
  - constructor.
  - cbn [completed_utterances]. apply Forall_app. split; [|apply IH].
    destruct (completed_utterance WHISPER_SAMPLE_RATE params st env) as [t|] eqn:E.
    + constructor; [|constructor].
      apply (completed_utterance_trimmed _ _ _ _ _ E).
    + constructor.
Qed.

(** What [transcribe_audio_segment] returns for a completed utterance is
    trimmed of leading and trailing whitespace. Standard output receives, in
    order, one line for each completed utterance whose returned text is not
    empty and nothing else: the text followed by a newline, flushed next.
    Within a tick the line comes last, and nothing else of the tick touches
    standard output. *)
Theorem emitted_lines_are_trimmed_utterances
    (WHISPER_SAMPLE_RATE : Z) (params : whisper_params) (st : loop_state)
    (ticks : list tick_env) :
  Forall trimmed (completed_utterances WHISPER_SAMPLE_RATE params st ticks)
  /\ stdout_events (trace (main_loop WHISPER_SAMPLE_RATE params st ticks))
     = flat_map emitted_line
         (filter (fun t => negb (string_empty t))
                 (completed_utterances WHISPER_SAMPLE_RATE params st ticks))
  /\ (forall env, exists before,
        stdout_events before = []
        /\ trace (tick WHISPER_SAMPLE_RATE params st env)
           = before
             ++ lines_of (completed_utterance WHISPER_SAMPLE_RATE params st env)).
Proof.
  split; [apply completed_utterances_trimmed|].
  split; [apply main_loop_stdout|].
  intros env. apply tick_stdout.
Qed.

(* ------------------------------------------------------------------ *)
(** ** Exit codes *)

Section ExitCodes.

Variable WHISPER_SAMPLE_RATE : Z.
Variable stoi : string -> option Z.
Variable stof : string -> option float.
Variable whisper_lang_id : string -> Z.
Variable hardware_concurrency : Z.

Lemma validate_returns (params : whisper_params) :
  exists ok params',
    validate whisper_lang_id params = ParseReturn ok params'.
Proof.
  unfold validate.
  destruct (negb _ && _); eexists; eexists; reflexivity.
Qed.

(** [exit] is called with 0 (help) or 1 (unknown argument) only. *)
Lemma whisper_params_parse_exit (rest : list string) :
  (forall params code,
      whisper_params_parse stoi stof whisper_lang_id rest params = ParseExit code ->
      code = 0 \/ code = 1)
  /\ (forall arg params code,
        whisper_params_parse stoi stof whisper_lang_id (arg :: rest) params
        = ParseExit code ->
        code = 0 \/ code = 1).
Proof.
  induction rest as [|a rest [IH1 IH2]].
  - assert (H0 : forall params code,
               whisper_params_parse stoi stof whisper_lang_id [] params
               = ParseExit code -> code = 0 \/ code = 1).
    { intros params code H. simpl in H.
      destruct (validate_returns params) as [ok [p' Hv]]. congruence. }
    split; [exact H0|].
    intros arg params code H. cbn [whisper_params_parse] in H.
    destruct (arg_chain stoi stof arg params) as [|assign|params'|].
    + injection H as <-. left. reflexivity.
    + discriminate.
    + apply (H0 params' code H).
    + injection H as <-. right. reflexivity.
  - split; [apply IH2|].
    intros arg params code H. cbn [whisper_params_parse] in H.
    destruct (arg_chain stoi stof arg params) as [|assign|params'|].
    + injection H as <-. left. reflexivity.
    + destruct (assign a) as [params'|]; [|discriminate].
      apply (IH1 params' code H).
    + apply (IH2 a params' code H).
    + injection H as <-. right. reflexivity.
Qed.

(** The exit codes read off the trace of a run. The code is 0 exactly when
    help was asked for, the devices were listed or the loop was left; 1
    exactly when the parser called [exit(1)] or returned false, or the audio
    device failed after its initialisation was attempted; 2 exactly when the
    whisper model failed; 3 exactly when the VAD model failed. A failing
    initialisation is attempted once and ends the run: nothing is started
    after it. *)
Theorem exit_code_identifies_failure (env : startup_env) :
  let run :=
    main WHISPER_SAMPLE_RATE stoi stof whisper_lang_id hardware_concurrency env in
  let parsed :=
    whisper_params_parse stoi stof whisper_lang_id (args env)
      (default_params hardware_concurrency) in
  (result run = Exit 0 <->
     parsed = ParseExit 0
     \/ In EvListDevices (trace run)
     \/ In EvAudioPause (trace run))
  /\ (result run = Exit 1 <->
        (parsed = ParseExit 1 \/ exists params, parsed = ParseReturn false params)
        \/ (In EvAudioInit (trace run) /\ audio_init_ok env = false))
  /\ (result run = Exit 2 <->
        In EvWhisperInit (trace run) /\ whisper_init_ok env = false)
  /\ (result run = Exit 3 <->
        In EvVadInit (trace run) /\ vad_init_ok env = false)
  /\ (result run = Exit 1 ->
        trace run = [] \/ trace run = [EvWhisperInit; EvVadInit; EvAudioInit])
  /\ (result run = Exit 2 -> trace run = [EvWhisperInit])
  /\ (result run = Exit 3 -> trace run = [EvWhisperInit; EvVadInit; EvWhisperFree]).
Proof.
  intros run parsed. subst run. unfold main. fold parsed.
  destruct parsed as [ok params | code |] eqn:Hparsed.
  - destruct ok.
    + destruct (list_devices params); [settle|].
      destruct (whisper_init_ok env) eqn:Hw; cbn [negb]; [|settle].
      destruct (vad_init_ok env) eqn:Hv; cbn [negb]; [|settle].
      destruct ((n_samples_buffer WHISPER_SAMPLE_RATE params <? 0)
                || (n_samples_vad WHISPER_SAMPLE_RATE params <? 0)); [settle|].
      destruct (audio_init_ok env) eqn:Ha; cbn [negb]; [|settle].
      (* the loop runs *)
      set (params' := processing_info env params).
      rewrite !result_bind, !trace_bind, run_loop_trace.
      cbn [perform ret result trace fst snd app].
      assert (Hpause :
                In EvAudioPause
                   (EvWhisperInit :: EvVadInit :: EvAudioInit :: EvAudioResume
                    :: (trace (main_loop WHISPER_SAMPLE_RATE params' initial_state
                                         (ticks env))
                        ++ [EvAudioPause; EvVadFree; EvWhisperFree]) ++ [])).
      { do 4 right. rewrite app_nil_r. apply in_or_app. right. left. reflexivity. }
      rewrite run_loop_result.
      repeat match goal with
             | |- _ /\ _ => split
             | |- _ <-> _ => split
             | |- _ -> _ => intro
             end;
        repeat match goal with
               | H : _ /\ _ |- _ => destruct H
               | H : (_ \/ _) \/ _ |- _ => destruct H
               | H : _ = _ \/ _ |- _ => destruct H
               | H : exists _, _ |- _ => destruct H
               end;
        try discriminate; try congruence; auto.
    + settle.
  - pose proof (proj1 (whisper_params_parse_exit (args env))
                      (default_params hardware_concurrency) code Hparsed)
      as [-> | ->]; settle.
  - settle.
Qed.

End ExitCodes.

(* ------------------------------------------------------------------ *)
(** ** End-to-end runs *)

(** Two ticks of silence, three of voice, one of silence: one segment is
    transcribed, made of the lookback window and the new samples of the
    three ticks that follow the first tick of voice; one line is printed. *)
Example run_silence_voice_silence :
  let run :=
    main_loop 16000 small_params initial_state
      [small_silence; small_silence;
       small_voice; small_voice; small_voice; small_silence] in
  transcribed_lengths (trace run) = [16 + 3 * 16]
  /\ stdout_events (trace run) = emitted_line "hello world"
  /\ result run = initial_state.
Proof. cbv zeta. split; [|split]; vm_compute; reflexivity. Qed.

(** The same run when the model recognises blanks only: nothing is printed
    and the state is Silence again. *)
Example run_blank_transcription :
  let run :=
    main_loop 16000 small_params initial_state
      [small_silence; small_silence;
       small_voice; small_voice; small_voice; small_blank] in
  transcribed_lengths (trace run) = [16 + 3 * 16]
  /\ stdout_events (trace run) = []
  /\ result run = initial_state.
Proof. cbv zeta. split; [|split]; vm_compute; reflexivity. Qed.

(** Runs of [main]: no argument and every collaborator ready; an unknown
    argument; an unknown language; a numeric option with a malformed value;
    and each of the three initialisations failing in turn. *)
Example runs_of_main :
  example_main [] true true true
  = (Exit 0, [EvWhisperInit; EvVadInit; EvAudioInit; EvAudioResume;
              EvAudioPause; EvVadFree; EvWhisperFree])
  /\ example_main ["--bogus"%string] true true true = (Exit 1, [])
  /\ example_main ["-l"%string; "xx"%string] true true true = (Exit 1, [])
  /\ example_main ["-t"%string; "four"%string] true true true = (Terminated, [])
  /\ example_main ["--list-devices"%string] true true true
     = (Exit 0, [EvListDevices])
  /\ example_main [] false true true = (Exit 2, [EvWhisperInit])
  /\ example_main [] true false true
     = (Exit 3, [EvWhisperInit; EvVadInit; EvWhisperFree])
  /\ example_main [] true true false
     = (Exit 1, [EvWhisperInit; EvVadInit; EvAudioInit]).
Proof. repeat apply conj; vm_compute; reflexivity. Qed.

(* ================================================================== *)
(** * Further properties of the loop *)

(* ------------------------------------------------------------------ *)
(** ** Traces of the stages *)

Lemma count_app (p : event -> bool) (t1 t2 : list event) :
  List.length (filter p (t1 ++ t2))
  = (List.length (filter p t1) + List.length (filter p t2))%nat.
Proof. rewrite filter_app, length_app. reflexivity. Qed.

Lemma transcribe_audio_segment_trace
    (ctx : whisper_context) (segment : pcm) (params : whisper_params) :
  trace (transcribe_audio_segment ctx segment params)
  = if vec_empty segment then []
    else [EvWhisperFull (full_params params) segment].
Proof.
  unfold transcribe_audio_segment.
  destruct (vec_empty segment); [reflexivity|].
  rewrite trace_bind.
  destruct (full_status _ =? 0); reflexivity.
Qed.

Lemma transcribe_audio_segment_result
    (ctx : whisper_context) (segment : pcm) (params : whisper_params) :
  result (transcribe_audio_segment ctx segment params)
  = if vec_empty segment then EmptyString
    else if full_status (ctx (full_params params) segment) =? 0
         then trim (collect_text (full_segments (ctx (full_params params) segment)))
         else EmptyString.
Proof.
  unfold transcribe_audio_segment.
  destruct (vec_empty segment); [reflexivity|].
  rewrite result_bind.
  destruct (full_status _ =? 0); reflexivity.
Qed.

(** The trace of the last stage: the call of the model, then the line. *)
Lemma end_of_speech_trace
    (params : whisper_params) (voice_detected : bool) (st : loop_state)
    (env : tick_env) :
  trace (end_of_speech params voice_detected st env)
  = if negb voice_detected && in_speech st then
      trace (transcribe_audio_segment (ctx env) (pcmf32_segment st) params)
      ++ lines_of (Some (result (transcribe_audio_segment
                                   (ctx env) (pcmf32_segment st) params)))
    else [].
Proof.
  unfold end_of_speech.
  destruct (negb voice_detected && in_speech st); [|reflexivity].
  rewrite !trace_bind. f_equal.
  unfold lines_of, emitted_line, newline.
  destruct (string_empty _); cbn [negb]; rewrite ?trace_bind; cbn; reflexivity.
Qed.

(** The trace of a tick, stage by stage. *)
Lemma tick_trace
    (WHISPER_SAMPLE_RATE : Z) (params : whisper_params) (st : loop_state)
    (env : tick_env) :
  trace (tick WHISPER_SAMPLE_RATE params st env)
  = trace (vad_stage WHISPER_SAMPLE_RATE params env)
    ++ if negb (result (vad_stage WHISPER_SAMPLE_RATE params env)) && in_speech st
       then
         let segment := pcmf32_segment (accumulate WHISPER_SAMPLE_RATE st env) in
         trace (transcribe_audio_segment (ctx env) segment params)
         ++ lines_of (Some (result (transcribe_audio_segment
                                      (ctx env) segment params)))
       else [].
Proof.
  destruct (result (vad_stage WHISPER_SAMPLE_RATE params env)) eqn:Hv.
  - rewrite tick_voice by exact Hv. rewrite trace_bind. reflexivity.
  - rewrite tick_silence by exact Hv.
    rewrite trace_bind, ?Hv, end_of_speech_trace, accumulate_in_speech.
    reflexivity.
Qed.

(** The state a tick leaves, by verdict and state. *)
Lemma tick_result
    (WHISPER_SAMPLE_RATE : Z) (params : whisper_params) (st : loop_state)
    (env : tick_env) :
  result (tick WHISPER_SAMPLE_RATE params st env)
  = if result (vad_stage WHISPER_SAMPLE_RATE params env) then
      if in_speech st then accumulate WHISPER_SAMPLE_RATE st env
      else {| in_speech := true;
              pcmf32_segment :=
                lastn (Z.to_nat (n_samples_vad WHISPER_SAMPLE_RATE params))
                      (audio_get env) |}
    else if in_speech st then {| in_speech := false; pcmf32_segment := [] |}
         else st.
Proof.
  destruct (result (vad_stage WHISPER_SAMPLE_RATE params env)) eqn:Hv.
  - rewrite tick_voice by exact Hv. rewrite result_bind.
    unfold ret, result. cbn [fst]. unfold start_of_speech.
    rewrite accumulate_in_speech.
    destruct (in_speech st) eqn:Hs; cbn [negb andb]; [reflexivity|].
    reflexivity.
  - rewrite tick_silence by exact Hv. rewrite result_bind.
    destruct (in_speech st) eqn:Hs.
    + apply end_of_speech_finalises. rewrite accumulate_in_speech. exact Hs.
    + rewrite accumulate_silence by exact Hs.
      rewrite end_of_speech_silence_state by exact Hs. reflexivity.
Qed.


(* ------------------------------------------------------------------ *)
(** ** State and verdict *)

(** X1. After any tick the state is Speech exactly when the verdict of that
    tick was voice, whatever the state was before. *)
Theorem state_follows_verdict
    (WHISPER_SAMPLE_RATE : Z) (params : whisper_params) (st : loop_state)
    (env : tick_env) :
  in_speech (result (tick WHISPER_SAMPLE_RATE params st env))
  = result (vad_stage WHISPER_SAMPLE_RATE params env).
Proof.
  rewrite tick_result.
  destruct (result (vad_stage WHISPER_SAMPLE_RATE params env));
    destruct (in_speech st) eqn:Hs; cbn [in_speech]; try reflexivity.
  - rewrite accumulate_in_speech. exact Hs.
  - exact Hs.
Qed.

Lemma silence_tick_in_silence
    (WHISPER_SAMPLE_RATE : Z) (params : whisper_params) (st : loop_state)
    (env : tick_env) :
  in_speech st = false ->
  silence_tick WHISPER_SAMPLE_RATE params env ->
  result (tick WHISPER_SAMPLE_RATE params st env) = st
  /\ trace (tick WHISPER_SAMPLE_RATE params st env)
     = trace (vad_stage WHISPER_SAMPLE_RATE params env).
Proof.
  unfold silence_tick. intros Hs Hv. split.
  - rewrite tick_result, Hv, Hs. reflexivity.
  - rewrite tick_trace, Hv, Hs. apply app_nil_r.
Qed.

(** X2. Ticks of silence in state Silence leave the state and the buffer as
    they are, invoke the transcription model zero times and print nothing. *)
Theorem silence_in_silence_is_idle
    (WHISPER_SAMPLE_RATE : Z) (params : whisper_params) (st : loop_state)
    (ticks : list tick_env) :
  in_speech st = false ->
  Forall (silence_tick WHISPER_SAMPLE_RATE params) ticks ->
  result (main_loop WHISPER_SAMPLE_RATE params st ticks) = st
  /\ transcriptions (trace (main_loop WHISPER_SAMPLE_RATE params st ticks)) = 0%nat
  /\ stdout_events (trace (main_loop WHISPER_SAMPLE_RATE params st ticks)) = [].
Proof.
  intros Hs Hticks. induction Hticks as [|env rest Hv Hrest IH].
  - repeat apply conj; reflexivity.
  - destruct (silence_tick_in_silence _ _ _ _ Hs Hv) as [Hr Ht].
    destruct IH as [IHr [IHt IHo]].
    cbn [main_loop]. rewrite result_bind, trace_bind, Hr, Ht.
    split; [exact IHr|]. split.
    + rewrite transcriptions_app, IHt.
      rewrite (proj1 (vad_stage_trace WHISPER_SAMPLE_RATE params env)).
      reflexivity.
    + rewrite stdout_events_app, IHo.
      rewrite (proj2 (vad_stage_trace WHISPER_SAMPLE_RATE params env)).
      reflexivity.
Qed.

(** Three ticks of silence from the initial state. *)
Lemma silence_in_silence_is_idle_witness :
  let ticks := [small_silence; small_silence; small_silence] in
  Forall (silence_tick 16000 small_params) ticks
  /\ result (main_loop 16000 small_params initial_state ticks) = initial_state
  /\ transcriptions (trace (main_loop 16000 small_params initial_state ticks))
     = 0%nat.
Proof.
  cbv zeta.
  assert (Hv : silence_tick 16000 small_params small_silence)
    by (vm_compute; reflexivity).
  assert (H : Forall (silence_tick 16000 small_params)
                     [small_silence; small_silence; small_silence])
    by (repeat (apply Forall_cons; [exact Hv|]); apply Forall_nil).
  destruct (silence_in_silence_is_idle 16000 small_params initial_state
              [small_silence; small_silence; small_silence] eq_refl H)
    as [Hr [Ht _]].
  split; [exact H|]. split; [exact Hr | exact Ht].
Defined.

(* ------------------------------------------------------------------ *)
(** ** What a run calls and prints *)

Lemma vad_stage_events
    (WHISPER_SAMPLE_RATE : Z) (params : whisper_params) (env : tick_env) :
  trace (vad_stage WHISPER_SAMPLE_RATE params env) = []
  \/ (size_t (n_samples_vad WHISPER_SAMPLE_RATE params)
      <= Z.of_nat (List.length (audio_get env))
      /\ trace (vad_stage WHISPER_SAMPLE_RATE params env)
         = [EvVadDetectSpeech
              (lastn (Z.to_nat (n_samples_vad WHISPER_SAMPLE_RATE params))
                     (audio_get env))]).
Proof.
  unfold vad_stage.
  destruct (Z.leb_spec (size_t (n_samples_vad WHISPER_SAMPLE_RATE params))
                       (Z.of_nat (List.length (audio_get env)))) as [H | H];
    [|left; reflexivity].
  destruct (detect_voice_activity_trace
              (Some (vad_ctx env))
              (lastn (Z.to_nat (n_samples_vad WHISPER_SAMPLE_RATE params))
                     (audio_get env))
              (vad_thold params)) as [Ht | Ht]; rewrite Ht.
  - left. reflexivity.
  - right. split; [exact H | reflexivity].
Qed.

(** What one tick calls and prints: the detector at most once, the model at
    most once, a line only after a call of the model. *)
Lemma tick_counts
    (WHISPER_SAMPLE_RATE : Z) (params : whisper_params) (st : loop_state)
    (env : tick_env) :
  let t := trace (tick WHISPER_SAMPLE_RATE params st env) in
  forallb is_tick_event t = true
  /\ (vad_calls t <= 1)%nat
  /\ (printed_lines t <= transcriptions t)%nat
  /\ (transcriptions t <= 1)%nat.
Proof.
  cbv zeta. rewrite tick_trace.
  unfold vad_calls, printed_lines, transcriptions.
  rewrite forallb_app, !count_app.
  assert (Hvad : forallb is_tick_event
                         (trace (vad_stage WHISPER_SAMPLE_RATE params env)) = true
                 /\ (List.length (filter is_vad_detect
                       (trace (vad_stage WHISPER_SAMPLE_RATE params env))) <= 1)%nat
                 /\ List.length (filter is_printf
                       (trace (vad_stage WHISPER_SAMPLE_RATE params env))) = 0%nat
                 /\ List.length (filter is_whisper_full
                       (trace (vad_stage WHISPER_SAMPLE_RATE params env))) = 0%nat).
  { destruct (vad_stage_events WHISPER_SAMPLE_RATE params env) as [H | [_ H]];
      rewrite H; cbn; repeat apply conj; auto. }
  destruct Hvad as [Hv1 [Hv2 [Hv3 Hv4]]]. rewrite Hv1, Hv3, Hv4.
  destruct (negb _ && in_speech st).
  - cbv zeta. rewrite transcribe_audio_segment_trace, transcribe_audio_segment_result.
    destruct (vec_empty _); [cbn; repeat apply conj; auto; lia|].
    destruct (full_status _ =? 0).
    + unfold lines_of, emitted_line.
      destruct (string_empty _); cbn; repeat apply conj; auto; lia.
    + cbn. repeat apply conj; auto; lia.
  - cbn. repeat apply conj; auto; lia.
Qed.

(** X3. A run of the loop performs nothing but calls of the detector, calls
    of the transcription model and writes to standard output. It calls the
    detector at most once per tick and the model at most once per tick, and
    it never prints more lines than it made calls of the model. *)
Theorem loop_calls_are_bounded
    (WHISPER_SAMPLE_RATE : Z) (params : whisper_params) (st : loop_state)
    (ticks : list tick_env) :
  let t := trace (main_loop WHISPER_SAMPLE_RATE params st ticks) in
  forallb is_tick_event t = true
  /\ (vad_calls t <= List.length ticks)%nat
  /\ (printed_lines t <= transcriptions t)%nat
  /\ (transcriptions t <= List.length ticks)%nat.
Proof.
  cbv zeta. revert st. induction ticks as [|env rest IH]; intros st.
  - cbn. repeat apply conj; auto.
  - cbn [main_loop List.length]. rewrite trace_bind.
    destruct (tick_counts WHISPER_SAMPLE_RATE params st env) as [H1 [H2 [H3 H4]]].
    destruct (IH (result (tick WHISPER_SAMPLE_RATE params st env)))
      as [I1 [I2 [I3 I4]]].
    unfold vad_calls, printed_lines, transcriptions in *.
    rewrite forallb_app, !count_app, H1, I1.
    repeat apply conj; [reflexivity | lia | lia | lia].
Qed.

(* ------------------------------------------------------------------ *)
(** ** The window of the detector *)

Lemma vad_window_lengths_app (t1 t2 : list event) :
  vad_window_lengths (t1 ++ t2) = vad_window_lengths t1 ++ vad_window_lengths t2.
Proof. unfold vad_window_lengths. apply flat_map_app. Qed.

Lemma vad_window_lengths_none (t : list event) :
  List.length (filter is_vad_detect t) = 0%nat -> vad_window_lengths t = [].
Proof.
  induction t as [|e t IH]; [reflexivity|].
  destruct e; cbn; try exact IH. discriminate.
Qed.

Lemma tick_vad_window
    (WHISPER_SAMPLE_RATE : Z) (params : whisper_params) (st : loop_state)
    (env : tick_env) :
  0 <= n_samples_vad WHISPER_SAMPLE_RATE params ->
  Forall (fun len => len = n_samples_vad WHISPER_SAMPLE_RATE params)
         (vad_window_lengths (trace (tick WHISPER_SAMPLE_RATE params st env))).
Proof.
  intros Hn. rewrite tick_trace, vad_window_lengths_app.
  apply Forall_app. split.
  - destruct (vad_stage_events WHISPER_SAMPLE_RATE params env) as [H | [Hlen H]];
      rewrite H; [constructor|].
    cbn. constructor; [|constructor].
    rewrite size_t_n_samples_vad in Hlen by exact Hn.
    rewrite lastn_length. lia.
  - rewrite vad_window_lengths_none; [constructor|].
    destruct (negb _ && in_speech st); [|reflexivity].
    cbv zeta. rewrite transcribe_audio_segment_trace, count_app.
    unfold lines_of, emitted_line.
    destruct (vec_empty _), (string_empty _); reflexivity.
Qed.

(** X4. Every window the loop hands to the detector has exactly
    [n_samples_vad] samples. *)
Theorem detector_window_has_fixed_length
    (WHISPER_SAMPLE_RATE : Z) (params : whisper_params) (st : loop_state)
    (ticks : list tick_env) :
  0 <= n_samples_vad WHISPER_SAMPLE_RATE params ->
  Forall (fun len => len = n_samples_vad WHISPER_SAMPLE_RATE params)
         (vad_window_lengths
            (trace (main_loop WHISPER_SAMPLE_RATE params st ticks))).
Proof.
  intros Hn. revert st. induction ticks as [|env rest IH]; intros st.
  - constructor.
  - cbn [main_loop]. rewrite trace_bind, vad_window_lengths_app.
    apply Forall_app. split; [apply tick_vad_window; exact Hn | apply IH].
Qed.

(** A tick of voice and a tick of silence on windows of 32 samples: both
    hand 16 samples to the detector. *)
Lemma detector_window_has_fixed_length_witness :
  0 <= n_samples_vad 16000 small_params
  /\ vad_window_lengths
       (trace (main_loop 16000 small_params initial_state
                         [small_voice; small_silence])) = [16; 16]
  /\ Forall (fun len => len = n_samples_vad 16000 small_params)
            (vad_window_lengths
               (trace (main_loop 16000 small_params initial_state
                                 [small_voice; small_silence]))).
Proof.
  assert (H : 0 <= n_samples_vad 16000 small_params)
    by (vm_compute; discriminate).
  split; [exact H|]. split; [vm_compute; reflexivity|].
  apply (detector_window_has_fixed_length 16000 small_params initial_state
           [small_voice; small_silence] H).
Defined.

(* ------------------------------------------------------------------ *)
(** ** The segment handed to transcription *)

Lemma transcribed_lengths_app (t1 t2 : list event) :
  transcribed_lengths (t1 ++ t2) = transcribed_lengths t1 ++ transcribed_lengths t2.
Proof. unfold transcribed_lengths. apply flat_map_app. Qed.

Lemma transcribed_lengths_none (t : list event) :
  transcriptions t = 0%nat -> transcribed_lengths t = [].
Proof.
  unfold transcriptions.
  induction t as [|e t IH]; [reflexivity|].
  destruct e; cbn; try exact IH. discriminate.
Qed.

Lemma lines_of_transcriptions (utterance : option string) :
  transcriptions (lines_of utterance) = 0%nat.
Proof.
  destruct utterance as [t|]; [|reflexivity].
  cbn. destruct (string_empty t); reflexivity.
Qed.

Lemma accumulate_grows
    (WHISPER_SAMPLE_RATE : Z) (st : loop_state) (env : tick_env) :
  (List.length (pcmf32_segment st)
   <= List.length (pcmf32_segment (accumulate WHISPER_SAMPLE_RATE st env)))%nat.
Proof.
  unfold accumulate.
  destruct (in_speech st); [|lia].
  destruct (0 <? new_samples WHISPER_SAMPLE_RATE env); [|lia].
  cbn [pcmf32_segment]. rewrite length_app. lia.
Qed.

Lemma vec_empty_length {A : Type} (v : list A) :
  vec_empty v = false <-> (0 < List.length v)%nat.
Proof.
  destruct v; cbn; split; intros H; try reflexivity; try discriminate; lia.
Qed.

Lemma tick_preserves_lookback
    (WHISPER_SAMPLE_RATE : Z) (params : whisper_params) (st : loop_state)
    (env : tick_env) :
  0 <= n_samples_vad WHISPER_SAMPLE_RATE params ->
  speech_holds_lookback WHISPER_SAMPLE_RATE params st ->
  speech_holds_lookback WHISPER_SAMPLE_RATE params
    (result (tick WHISPER_SAMPLE_RATE params st env)).
Proof.
  unfold speech_holds_lookback. intros Hn Hinv. rewrite tick_result.
  destruct (result (vad_stage WHISPER_SAMPLE_RATE params env)) eqn:Hv.
  - destruct (in_speech st) eqn:Hs.
    + intros _. pose proof (accumulate_grows WHISPER_SAMPLE_RATE st env).
      specialize (Hinv eq_refl). lia.
    + intros _. cbn [pcmf32_segment]. rewrite lastn_length.
      pose proof (voice_tick_window _ _ _ Hv Hn). lia.
  - destruct (in_speech st) eqn:Hs; cbn [in_speech]; [discriminate|].
    rewrite Hs. discriminate.
Qed.

(** The segments a tick hands over, and how often, when the state holds the
    lookback window. *)
Lemma tick_transcribed
    (WHISPER_SAMPLE_RATE : Z) (params : whisper_params) (st : loop_state)
    (env : tick_env) :
  speech_holds_lookback WHISPER_SAMPLE_RATE params st ->
  Forall (fun len => n_samples_vad WHISPER_SAMPLE_RATE params <= len)
         (transcribed_lengths (trace (tick WHISPER_SAMPLE_RATE params st env)))
  /\ (0 < n_samples_vad WHISPER_SAMPLE_RATE params ->
      transcribed_lengths (trace (tick WHISPER_SAMPLE_RATE params st env))
      = if negb (result (vad_stage WHISPER_SAMPLE_RATE params env)) && in_speech st
        then [Z.of_nat (List.length
                          (pcmf32_segment (accumulate WHISPER_SAMPLE_RATE st env)))]
        else []).
Proof.
  unfold speech_holds_lookback. intros Hinv.
  rewrite tick_trace, transcribed_lengths_app.
  rewrite (transcribed_lengths_none
             (trace (vad_stage WHISPER_SAMPLE_RATE params env)))
    by apply vad_stage_trace.
  cbn [app].
  destruct (negb _ && in_speech st) eqn:Hfin.
  - apply andb_prop in Hfin. destruct Hfin as [_ Hs]. specialize (Hinv Hs).
    pose proof (accumulate_grows WHISPER_SAMPLE_RATE st env) as Hgrow.
    cbv zeta. rewrite transcribed_lengths_app.
    rewrite (transcribed_lengths_none (lines_of _))
      by apply lines_of_transcriptions.
    rewrite app_nil_r, transcribe_audio_segment_trace.
    destruct (vec_empty _) eqn:He.
    + split; [constructor|]. intros Hpos.
      destruct (pcmf32_segment (accumulate WHISPER_SAMPLE_RATE st env));
        [cbn in Hgrow; lia | discriminate].
    + cbn. split; [|reflexivity]. constructor; [lia | constructor].
  - split; [constructor | reflexivity].
Qed.

Lemma main_loop_preserves_lookback
    (WHISPER_SAMPLE_RATE : Z) (params : whisper_params) (ticks : list tick_env) :
  0 <= n_samples_vad WHISPER_SAMPLE_RATE params ->
  forall st,
    speech_holds_lookback WHISPER_SAMPLE_RATE params st ->
    speech_holds_lookback WHISPER_SAMPLE_RATE params
      (result (main_loop WHISPER_SAMPLE_RATE params st ticks))
    /\ Forall (fun len => n_samples_vad WHISPER_SAMPLE_RATE params <= len)
              (transcribed_lengths
                 (trace (main_loop WHISPER_SAMPLE_RATE params st ticks))).
Proof.
  intros Hn. induction ticks as [|env rest IH]; intros st Hinv.
  - split; [exact Hinv | constructor].
  - cbn [main_loop]. rewrite result_bind, trace_bind, transcribed_lengths_app.
    destruct (IH _ (tick_preserves_lookback _ _ _ env Hn Hinv)) as [IH1 IH2].
    split; [exact IH1|].
    apply Forall_app. split; [|exact IH2].
    apply tick_transcribed. exact Hinv.
Qed.

Lemma initial_state_holds_lookback
    (WHISPER_SAMPLE_RATE : Z) (params : whisper_params) :
  speech_holds_lookback WHISPER_SAMPLE_RATE params initial_state.
Proof. unfold speech_holds_lookback. cbn. discriminate. Qed.

(** X5. In a run from the initial state, whenever the state is Speech the
    buffer holds at least [n_samples_vad] samples, and every segment handed
    to the transcription model has at least [n_samples_vad] samples. *)
Theorem segments_hold_lookback
    (WHISPER_SAMPLE_RATE : Z) (params : whisper_params) (ticks : list tick_env) :
  0 <= n_samples_vad WHISPER_SAMPLE_RATE params ->
  speech_holds_lookback WHISPER_SAMPLE_RATE params
    (result (main_loop WHISPER_SAMPLE_RATE params initial_state ticks))
  /\ Forall (fun len => n_samples_vad WHISPER_SAMPLE_RATE params <= len)
            (transcribed_lengths
               (trace (main_loop WHISPER_SAMPLE_RATE params initial_state ticks))).
Proof.
  intros Hn. apply main_loop_preserves_lookback; [exact Hn|].
  apply initial_state_holds_lookback.
Qed.

(** Voice, voice, silence: one segment of 48 samples, three times the window. *)
Lemma segments_hold_lookback_witness :
  let ticks := [small_voice; small_voice; small_silence] in
  0 <= n_samples_vad 16000 small_params
  /\ transcribed_lengths (trace (main_loop 16000 small_params initial_state ticks))
     = [48]
  /\ Forall (fun len => n_samples_vad 16000 small_params <= len)
            (transcribed_lengths
               (trace (main_loop 16000 small_params initial_state ticks))).
Proof.
  cbv zeta.
  assert (H : 0 <= n_samples_vad 16000 small_params)
    by (vm_compute; discriminate).
  split; [exact H|]. split; [vm_compute; reflexivity|].
  apply (segments_hold_lookback 16000 small_params
           [small_voice; small_voice; small_silence] H).
Defined.

Lemma transcriptions_transcribed_lengths (t : list event) :
  transcriptions t = List.length (transcribed_lengths t).
Proof.
  unfold transcriptions.
  induction t as [|e t IH]; [reflexivity|].
  destruct e; cbn; try exact IH. f_equal. exact IH.
Qed.

Lemma main_loop_transcribes_utterances
    (WHISPER_SAMPLE_RATE : Z) (params : whisper_params) (ticks : list tick_env) :
  0 < n_samples_vad WHISPER_SAMPLE_RATE params ->
  forall st,
    speech_holds_lookback WHISPER_SAMPLE_RATE params st ->
    transcriptions (trace (main_loop WHISPER_SAMPLE_RATE params st ticks))
    = List.length (completed_utterances WHISPER_SAMPLE_RATE params st ticks).
Proof.
  intros Hn. induction ticks as [|env rest IH]; intros st Hinv.
  - reflexivity.
  - cbn [main_loop completed_utterances].
    rewrite trace_bind, transcriptions_app, length_app.
    rewrite IH by (apply tick_preserves_lookback; [lia | exact Hinv]).
    f_equal.
    rewrite transcriptions_transcribed_lengths.
    rewrite (proj2 (tick_transcribed _ _ _ env Hinv) Hn).
    unfold completed_utterance.
    destruct (negb _ && in_speech st); reflexivity.
Qed.

(** X6. With a VAD window that is not empty, a run from the initial state
    invokes the transcription model exactly once for each utterance it
    completes (each tick that starts in Speech and has a verdict of
    silence), and never otherwise. *)
Theorem each_utterance_is_transcribed_once
    (WHISPER_SAMPLE_RATE : Z) (params : whisper_params) (ticks : list tick_env) :
  0 < n_samples_vad WHISPER_SAMPLE_RATE params ->
  transcriptions (trace (main_loop WHISPER_SAMPLE_RATE params initial_state ticks))
  = List.length
      (completed_utterances WHISPER_SAMPLE_RATE params initial_state ticks).
Proof.
  intros Hn. apply main_loop_transcribes_utterances; [exact Hn|].
  apply initial_state_holds_lookback.
Qed.

(** Two utterances, the second one recognised as blanks. *)
Lemma each_utterance_is_transcribed_once_witness :
  let ticks := [small_voice; small_silence; small_silence;
                small_voice; small_voice; small_blank] in
  0 < n_samples_vad 16000 small_params
  /\ completed_utterances 16000 small_params initial_state ticks
     = ["hello world"%string; EmptyString]
  /\ transcriptions (trace (main_loop 16000 small_params initial_state ticks))
     = 2%nat.
Proof.
  cbv zeta.
  assert (H : 0 < n_samples_vad 16000 small_params)
    by (vm_compute; reflexivity).
  split; [exact H|]. split; [vm_compute; reflexivity|].
  rewrite (each_utterance_is_transcribed_once 16000 small_params _ H).
  vm_compute. reflexivity.
Defined.

Lemma new_tails_length (WHISPER_SAMPLE_RATE : Z) (ticks : list tick_env) :
  List.length
    (List.concat
       (map (fun env => lastn (capped_new_count WHISPER_SAMPLE_RATE env)
                              (audio_get env)) ticks))
  = list_sum (map (capped_new_count WHISPER_SAMPLE_RATE) ticks).
Proof.
  induction ticks as [|env rest IH]; [reflexivity|].
  cbn [map List.concat list_sum].
  rewrite length_app, IH, capped_new_count_length. reflexivity.
Qed.

Lemma accumulate_appends_new_count
    (WHISPER_SAMPLE_RATE : Z) (st : loop_state) (env : tick_env) :
  in_speech st = true ->
  accumulate WHISPER_SAMPLE_RATE st env
  = {| in_speech := true;
       pcmf32_segment :=
         pcmf32_segment st
         ++ lastn (new_count WHISPER_SAMPLE_RATE env) (audio_get env) |}.
Proof.
  intros Hs. unfold accumulate, new_count. rewrite Hs.
  destruct (Z.ltb_spec 0 (new_samples WHISPER_SAMPLE_RATE env)) as [H | H].
  - reflexivity.
  - replace (Z.to_nat (new_samples WHISPER_SAMPLE_RATE env)) with 0%nat by lia.
    rewrite lastn_0, app_nil_r. destruct st; simpl in *. congruence.
Qed.







(** X8. When [whisper_full] fails on the segment of an utterance (a return
    value other than 0), nothing is printed for it, and the state is Silence
    again with an empty buffer. *)
Theorem failed_transcription_prints_nothing
    (WHISPER_SAMPLE_RATE : Z) (params : whisper_params) (st : loop_state)
    (env : tick_env) :
  in_speech st = true ->
  silence_tick WHISPER_SAMPLE_RATE params env ->
  full_status
    (ctx env (full_params params)
         (pcmf32_segment (accumulate WHISPER_SAMPLE_RATE st env))) <> 0 ->
  stdout_events (trace (tick WHISPER_SAMPLE_RATE params st env)) = []
  /\ result (tick WHISPER_SAMPLE_RATE params st env)
     = {| in_speech := false; pcmf32_segment := [] |}.
Proof.
  intros Hs Hv Hfail. split.
  - rewrite tick_trace, Hv, Hs. cbn [negb andb]. cbv zeta.
    rewrite !stdout_events_app, transcribe_audio_segment_stdout.
    rewrite (proj2 (vad_stage_trace WHISPER_SAMPLE_RATE params env)).
    rewrite transcribe_audio_segment_result.
    destruct (vec_empty _); [reflexivity|].
    destruct (Z.eqb_spec (full_status
                            (ctx env (full_params params)
                                 (pcmf32_segment
                                    (accumulate WHISPER_SAMPLE_RATE st env)))) 0)
      as [E | E]; [contradiction | reflexivity].
  - rewrite tick_result, Hv, Hs. reflexivity.
Qed.

(** A segment of 16 samples is open and [whisper_full] returns 1. *)
Lemma failed_transcription_prints_nothing_witness :
  let st := {| in_speech := true; pcmf32_segment := repeat f32_0_6 16 |} in
  silence_tick 16000 small_params (small_failing 1)
  /\ transcriptions (trace (tick 16000 small_params st (small_failing 1))) = 1%nat
  /\ stdout_events (trace (tick 16000 small_params st (small_failing 1))) = [].
Proof.
  cbv zeta.
  assert (Hv : silence_tick 16000 small_params (small_failing 1))
    by (vm_compute; reflexivity).
  destruct (failed_transcription_prints_nothing 16000 small_params
              {| in_speech := true; pcmf32_segment := repeat f32_0_6 16 |}
              (small_failing 1) eq_refl Hv) as [Hout _].
  - vm_compute. discriminate.
  - split; [exact Hv|]. split; [vm_compute; reflexivity | exact Hout].
Defined.

(** X9. When the VAD window is longer than the audio buffer and [audio.get]
    never returns more than the buffer holds, the loop never calls the
    detector, never leaves Silence and never transcribes or prints. *)
Theorem window_beyond_buffer_hears_nothing
    (WHISPER_SAMPLE_RATE : Z) (params : whisper_params) (ticks : list tick_env) :
  n_samples_buffer WHISPER_SAMPLE_RATE params
  < n_samples_vad WHISPER_SAMPLE_RATE params ->
  Forall (fun env => Z.of_nat (List.length (audio_get env))
                     <= n_samples_buffer WHISPER_SAMPLE_RATE params) ticks ->
  main_loop WHISPER_SAMPLE_RATE params initial_state ticks = (initial_state, []).
Proof.
  intros Hlt Hticks. induction Hticks as [|env rest Hlen Hrest IH].
  - reflexivity.
  - assert (Hshort : short_window WHISPER_SAMPLE_RATE params env)
      by (unfold short_window; lia).
    pose proof (vad_stage_short _ _ _ Hshort) as Hvad.
    assert (Ht : tick WHISPER_SAMPLE_RATE params initial_state env
                 = (initial_state, [])).
    { rewrite tick_silence by (rewrite Hvad; reflexivity).
      rewrite Hvad. reflexivity. }
    cbn [main_loop]. rewrite Ht.
    rewrite (bind_ret_l initial_state). exact IH.
Qed.

(** [--silence 3000] with the default buffer of 2000 ms: windows of two
    seconds are too short for the detector. *)
Lemma window_beyond_buffer_hears_nothing_witness :
  let two_seconds := example_tick (half_second ++ half_second
                                   ++ half_second ++ half_second)
                                  [f32_0_6] in
  n_samples_buffer 16000 long_silence_params
  < n_samples_vad 16000 long_silence_params
  /\ main_loop 16000 long_silence_params initial_state [two_seconds; two_seconds]
     = (initial_state, []).
Proof.
  cbv zeta.
  assert (H : n_samples_buffer 16000 long_silence_params
              < n_samples_vad 16000 long_silence_params)
    by (vm_compute; reflexivity).
  split; [exact H|].
  apply (window_beyond_buffer_hears_nothing 16000 long_silence_params _ H).
  repeat (apply Forall_cons;
          [cbn [audio_get example_tick]; unfold half_second;
           rewrite !length_app, !repeat_length; vm_compute; discriminate|]).
  apply Forall_nil.
Defined.

(* ================================================================== *)
(** * Further properties of the VAD decision *)

Lemma float_lt_nan_right (x : float) : float_lt x S754_nan = false.
Proof. destruct x; reflexivity. Qed.

(** X10. A verdict of voice is never groundless: the window is not empty,
    the detector succeeded, and one of the probabilities it left is above
    the threshold. *)
Theorem voice_verdict_has_a_cause
    (vad : whisper_vad_context) (audio_samples : pcm) (vad_threshold : float) :
  result (detect_voice_activity (Some vad) audio_samples vad_threshold) = true ->
  audio_samples <> []
  /\ vad_success (vad audio_samples) = true
  /\ 0 < vad_n_probs (vad audio_samples)
  /\ exists probs p,
       vad_probs (vad audio_samples) = Some probs
       /\ In p (firstn (Z.to_nat (vad_n_probs (vad audio_samples))) probs)
       /\ float_lt vad_threshold p = true.
Proof.
  unfold detect_voice_activity.
  destruct audio_samples as [|s samples]; [discriminate|].
  cbn [vec_empty]. rewrite result_bind.
  destruct (vad (s :: samples)) as [ok n probs]. cbn.
  destruct ok; [|discriminate]. cbn.
  destruct probs as [probs|]; [|discriminate].
  destruct (Z.leb_spec n 0) as [Hn | Hn]; [discriminate|].
  destruct (firstn (Z.to_nat n) probs) as [|first rest] eqn:E; [discriminate|].
  cbn. intros H.
  split; [discriminate|]. split; [reflexivity|]. split; [exact Hn|].
  exists probs, (max_element_from first rest).
  split; [reflexivity|]. split; [rewrite E; apply max_element_from_In | exact H].
Qed.

(** The detector leaves [0.4, 0.6] and the threshold is 0.5. *)
Lemma voice_verdict_has_a_cause_witness :
  result (detect_voice_activity (Some (vad_yielding [f32_0_4; f32_0_6]))
                                [f32_0_4] f32_0_5) = true
  /\ exists probs p,
       Some [f32_0_4; f32_0_6] = Some probs
       /\ In p (firstn (Z.to_nat 2) probs)
       /\ float_lt f32_0_5 p = true.
Proof.
  assert (H : result (detect_voice_activity
                        (Some (vad_yielding [f32_0_4; f32_0_6]))
                        [f32_0_4] f32_0_5) = true) by reflexivity.
  split; [exact H|].
  exact (proj2 (proj2 (proj2 (voice_verdict_has_a_cause
                                (vad_yielding [f32_0_4; f32_0_6])
                                [f32_0_4] f32_0_5 H)))).
Defined.

(** X11. When the detector succeeds and none of the probabilities it left is
    NaN, one probability above the threshold is enough for a verdict of
    voice, wherever it stands in the array. *)
Theorem one_probability_above_threshold_is_voice
    (vad : whisper_vad_context) (audio_samples : pcm) (vad_threshold : float)
    (probs : list float) (p : float) :
  audio_samples <> [] ->
  vad_success (vad audio_samples) = true ->
  vad_probs (vad audio_samples) = Some probs ->
  Forall not_nan (firstn (Z.to_nat (vad_n_probs (vad audio_samples))) probs) ->
  In p (firstn (Z.to_nat (vad_n_probs (vad audio_samples))) probs) ->
  float_lt vad_threshold p = true ->
  result (detect_voice_activity (Some vad) audio_samples vad_threshold) = true.
Proof.
  unfold detect_voice_activity.
  destruct audio_samples as [|s samples]; [congruence|].
  intros _. cbn [vec_empty]. rewrite result_bind.
  destruct (vad (s :: samples)) as [ok n probs']. cbn.
  intros -> [= ->] Hnan Hin Hp. cbn.
  destruct (Z.leb_spec n 0) as [Hn | Hn].
  - replace (Z.to_nat n) with 0%nat in Hin by lia. destruct Hin.
  - destruct (firstn (Z.to_nat n) probs) as [|first rest] eqn:E; [destruct Hin|].
    cbn.
    pose proof (max_element_from_In first rest) as Hmax.
    pose proof (max_element_from_upper first rest p Hin) as Hup.
    assert (Hnum : max_element_from first rest <> S754_nan).
    { rewrite Forall_forall in Hnan. apply Hnan. exact Hmax. }
    destruct (float_lt_cotrans vad_threshold (max_element_from first rest) p
                Hnum Hp) as [H | H]; [exact H | congruence].
Qed.

(** The detector leaves [0.6, 0.4]: the first probability alone is above the
    threshold 0.5. *)
Lemma one_probability_above_threshold_is_voice_witness :
  Forall not_nan (firstn (Z.to_nat 2) [f32_0_6; f32_0_4])
  /\ float_lt f32_0_5 f32_0_6 = true
  /\ result (detect_voice_activity (Some (vad_yielding [f32_0_6; f32_0_4]))
                                   [f32_0_4] f32_0_5) = true.
Proof.
  assert (Hnan : Forall not_nan (firstn (Z.to_nat 2) [f32_0_6; f32_0_4]))
    by (repeat constructor; discriminate).
  split; [exact Hnan|]. split; [reflexivity|].
  apply (one_probability_above_threshold_is_voice
           (vad_yielding [f32_0_6; f32_0_4]) [f32_0_4] f32_0_5
           [f32_0_6; f32_0_4] f32_0_6).
  - discriminate.
  - reflexivity.
  - reflexivity.
  - exact Hnan.
  - left. reflexivity.
  - reflexivity.
Defined.

(** X12. NaN silences the decision: when the first probability the detector
    left is NaN the verdict is silence whatever the other probabilities are,
    and with a NaN threshold the verdict is always silence. *)
Theorem nan_gives_silence
    (vad : whisper_vad_context) (audio_samples : pcm) (vad_threshold : float) :
  ((exists rest, vad_probs (vad audio_samples) = Some (S754_nan :: rest)) ->
   result (detect_voice_activity (Some vad) audio_samples vad_threshold) = false)
  /\ result (detect_voice_activity (Some vad) audio_samples S754_nan) = false.
Proof.
  unfold detect_voice_activity.
  destruct audio_samples as [|s samples]; [split; reflexivity|].
  cbn [vec_empty]. rewrite !result_bind.
  destruct (vad (s :: samples)) as [ok n probs]. cbn.
  destruct ok; [|split; reflexivity]. cbn.
  destruct probs as [probs|]; [|split; reflexivity].
  destruct (Z.leb_spec n 0) as [Hn | Hn]; [split; reflexivity|].
  split.
  - intros [rest [= ->]].
    destruct (Z.to_nat n) as [|k] eqn:E; [lia|].
    cbn. rewrite max_element_from_nan. apply float_lt_nan_right.
  - destruct (max_element _); reflexivity.
Qed.

(** The detector leaves [NaN, 0.6]: silence at threshold 0.5, although 0.6
    is above it; with [0.6, NaN] the verdict is voice. *)
Lemma nan_gives_silence_witness :
  result (detect_voice_activity (Some (vad_yielding [S754_nan; f32_0_6]))
                                [f32_0_4] f32_0_5) = false
  /\ result (detect_voice_activity (Some (vad_yielding [f32_0_6; S754_nan]))
                                   [f32_0_4] f32_0_5) = true.
Proof.
  split; [|reflexivity].
  apply (proj1 (nan_gives_silence (vad_yielding [S754_nan; f32_0_6])
                                  [f32_0_4] f32_0_5)).
  exists [f32_0_6]. reflexivity.
Defined.

(* ================================================================== *)
(** * Further properties of the transcription *)

Lemma string_append_nil_r (s : string) : (s ++ EmptyString)%string = s.
Proof. induction s as [|c s IH]; cbn; [reflexivity | f_equal; exact IH]. Qed.

Lemma string_append_assoc (a b c : string) :
  ((a ++ b) ++ c)%string = (a ++ (b ++ c))%string.
Proof. induction a as [|x a IH]; cbn; [reflexivity | f_equal; exact IH]. Qed.

Lemma collect_text_from (segments : list (option string)) :
  forall full_text,
    fold_left
      (fun full_text text =>
         match text with
         | Some t => if (0 <? String.length t)%nat then (full_text ++ t)%string
                     else full_text
         | None => full_text
         end)
      segments full_text
    = (full_text
       ++ fold_right String.append EmptyString (map text_or_empty segments))%string.
Proof.
  induction segments as [|text rest IH]; intros full_text.
  - cbn. symmetry. apply string_append_nil_r.
  - cbn [fold_left map fold_right]. rewrite IH.
    destruct text as [t|]; cbn [text_or_empty].
    + destruct t as [|c t]; cbn [String.length Nat.ltb Nat.leb].
      * reflexivity.
      * apply string_append_assoc.
    + reflexivity.
Qed.

(** X13. The text of a transcription is the concatenation, in order, of the
    texts of its segments, a null or empty text adding nothing; the text of
    two runs of segments one after the other is the concatenation of their
    texts. *)
Theorem collect_text_concatenates (segments more : list (option string)) :
  collect_text segments
  = fold_right String.append EmptyString (map text_or_empty segments)
  /\ collect_text (segments ++ more)
     = (collect_text segments ++ collect_text more)%string.
Proof.
  assert (H : forall l, collect_text l
                        = fold_right String.append EmptyString
                                     (map text_or_empty l))
    by (intros l; unfold collect_text; rewrite collect_text_from; reflexivity).
  split; [apply H|].
  rewrite !H, map_app.
  induction (map text_or_empty segments) as [|t l IH]; cbn.
  - reflexivity.
  - rewrite IH. symmetry. apply string_append_assoc.
Qed.

(* ================================================================== *)
(** * Further properties of the command line *)

Section CommandLine.

Variable WHISPER_SAMPLE_RATE : Z.
Variable stoi : string -> option Z.
Variable stof : string -> option float.
Variable whisper_lang_id : string -> Z.
Variable hardware_concurrency : Z.

(** Every way [whisper_params_parse] ends: through the validation, through
    one of the two calls of [exit], or terminated. *)
Lemma whisper_params_parse_cases (Q : parse_outcome -> Prop) :
  (forall params, Q (validate whisper_lang_id params)) ->
  Q (ParseExit 0) -> Q (ParseExit 1) -> Q ParseAbort ->
  forall rest params,
    Q (whisper_params_parse stoi stof whisper_lang_id rest params).
Proof.
  intros Hvalidate Hhelp Hunknown Habort rest.
  enough (H : (forall params,
                  Q (whisper_params_parse stoi stof whisper_lang_id rest params))
              /\ (forall arg params,
                    Q (whisper_params_parse stoi stof whisper_lang_id
                                            (arg :: rest) params)))
    by apply H.
  induction rest as [|a rest [IH1 IH2]].
  - assert (H0 : forall params,
               Q (whisper_params_parse stoi stof whisper_lang_id [] params))
      by (intros params; apply Hvalidate).
    split; [exact H0|].
    intros arg params. cbn [whisper_params_parse].
    destruct (arg_chain stoi stof arg params) as [|assign|params'|].
    + exact Hhelp.
    + exact Habort.
    + apply (H0 params').
    + exact Hunknown.
  - split; [apply IH2|].
    intros arg params. cbn [whisper_params_parse].
    destruct (arg_chain stoi stof arg params) as [|assign|params'|].
    + exact Hhelp.
    + destruct (assign a) as [params'|]; [apply (IH1 params') | exact Habort].
    + apply (IH2 a params').
    + exact Hunknown.
Qed.

Lemma validate_clamped (params : whisper_params) :
  match validate whisper_lang_id params with
  | ParseReturn _ params' => clamped params'
  | _ => True
  end.
Proof.
  unfold validate.
  destruct (negb _ && _); unfold clamped; cbn; lia.
Qed.

Lemma whisper_params_parse_clamped
    (rest : list string) (params : whisper_params) (ok : bool)
    (params' : whisper_params) :
  whisper_params_parse stoi stof whisper_lang_id rest params
  = ParseReturn ok params' ->
  clamped params'.
Proof.
  pattern (whisper_params_parse stoi stof whisper_lang_id rest params).
  apply whisper_params_parse_cases; try discriminate.
  intros p H. pose proof (validate_clamped p) as Hc.
  rewrite H in Hc. exact Hc.
Qed.

(** X14. Whenever [whisper_params_parse] returns, with true or with false,
    the parameters it leaves have an audio buffer of at least 1000 ms, a
    silence duration of at least 500 ms, a minimum step of at least 100 ms
    and a log level between 0 and 5, whatever the command line asked for. *)
Theorem parsed_params_are_clamped (rest : list string) (params : whisper_params) :
  match whisper_params_parse stoi stof whisper_lang_id rest params with
  | ParseReturn _ params' => clamped params'
  | _ => True
  end.
Proof.
  destruct (whisper_params_parse stoi stof whisper_lang_id rest params)
    as [ok params'| |] eqn:E; [|exact I|exact I].
  apply (whisper_params_parse_clamped _ _ _ _ E).
Qed.

Lemma validate_language (params : whisper_params) :
  match validate whisper_lang_id params with
  | ParseReturn ok params' =>
      ok = true <->
      (language params' = "auto"%string
       \/ whisper_lang_id (language params') <> -1)
  | _ => True
  end.
Proof.
  unfold validate, arg_is. cbn [language set_whisper_log_level set_min_step_ms
                                set_silence_ms set_audio_buffer_ms].
  destruct (String.eqb_spec (language params) "auto") as [Ha | Ha];
    destruct (Z.eqb_spec (whisper_lang_id (language params)) (-1)) as [Hl | Hl];
    cbn [negb andb language set_whisper_log_level set_min_step_ms
         set_silence_ms set_audio_buffer_ms];
    split; intros H; try reflexivity; try discriminate; auto.
  destruct H as [H | H]; contradiction.
Qed.

(** X15. [whisper_params_parse] returns true exactly when the language it
    leaves is ["auto"] or one that [whisper_lang_id] knows; it returns false
    for every other language. *)
Theorem parse_accepts_known_languages
    (rest : list string) (params : whisper_params) :
  match whisper_params_parse stoi stof whisper_lang_id rest params with
  | ParseReturn ok params' =>
      ok = true <->
      (language params' = "auto"%string
       \/ whisper_lang_id (language params') <> -1)
  | _ => True
  end.
Proof.
  apply whisper_params_parse_cases; try exact I.
  apply validate_language.
Qed.

(** X16. The validation is idempotent: validating again the parameters it
    left changes nothing and gives the same answer. *)
Theorem validate_is_idempotent (params : whisper_params) :
  match validate whisper_lang_id params with
  | ParseReturn ok params' =>
      validate whisper_lang_id params' = ParseReturn ok params'
  | _ => False
  end.
Proof.
  unfold validate.
  destruct params as [nt ci mt ac ab sm ms bs vt nf ug fa vb ld wl lang mo vm].
  cbn [language audio_buffer_ms silence_ms min_step_ms whisper_log_level
       set_whisper_log_level set_min_step_ms set_silence_ms set_audio_buffer_ms].
  destruct (negb (arg_is lang "auto") && (whisper_lang_id lang =? -1)) eqn:E;
    cbn [language audio_buffer_ms silence_ms min_step_ms whisper_log_level
         set_whisper_log_level set_min_step_ms set_silence_ms set_audio_buffer_ms
         n_threads capture_id max_tokens audio_ctx beam_size vad_thold
         no_fallback use_gpu flash_attn verbose list_devices model vad_model];
    rewrite E;
    replace (Z.max (Z.max ab 1000) 1000) with (Z.max ab 1000) by lia;
    replace (Z.max (Z.max sm 500) 500) with (Z.max sm 500) by lia;
    replace (Z.max (Z.max ms 100) 100) with (Z.max ms 100) by lia;
    replace (Z.max 0 (Z.min (Z.max 0 (Z.min wl 5)) 5))
      with (Z.max 0 (Z.min wl 5)) by lia;
    reflexivity.
Qed.

(** The setting of an option overrides an earlier setting of the same
    option. *)
Lemma arg_chain_again
    (arg value : string) (params params1 : whisper_params)
    (assign : string -> option whisper_params) :
  arg_chain stoi stof arg params = ActValue assign ->
  assign value = Some params1 ->
  exists assign1,
    arg_chain stoi stof arg params1 = ActValue assign1
    /\ forall value2, assign1 value2 = assign value2.
Proof.
  unfold arg_chain, with_int, with_float, with_string.
  intros H. revert H.
  repeat match goal with
         | |- context [if ?b then _ else _] => destruct b
         end;
    intros H Hv; try discriminate;
    injection H as <-; cbv beta in Hv;
    (eexists; split; [reflexivity|]; intros value2; cbv beta;
     try (destruct (stoi value); [|discriminate]);
     try (destruct (stof value); [|discriminate]);
     cbn in Hv; injection Hv as <-;
     try destruct (stoi value2); try destruct (stof value2); reflexivity).
Qed.

(** X17. The last occurrence of an option wins: when an option with its value
    is directly followed by the same option with another value, the parser
    ends as if the first occurrence were not there, provided the first value
    is well-formed. *)
Theorem repeated_option_last_wins
    (arg value1 value2 : string) (rest : list string)
    (params params1 : whisper_params)
    (assign : string -> option whisper_params) :
  arg_chain stoi stof arg params = ActValue assign ->
  assign value1 = Some params1 ->
  whisper_params_parse stoi stof whisper_lang_id
    (arg :: value1 :: arg :: value2 :: rest) params
  = whisper_params_parse stoi stof whisper_lang_id
      (arg :: value2 :: rest) params.
Proof.
  intros H Hv.
  destruct (arg_chain_again _ _ _ _ _ H Hv) as [assign1 [H1 Hsame]].
  cbn [whisper_params_parse]. rewrite H, Hv.
  cbn [whisper_params_parse]. rewrite H1, Hsame. reflexivity.
Qed.

Lemma arg_chain_value_option (arg : string) (params : whisper_params) :
  In arg value_options ->
  exists assign, arg_chain stoi stof arg params = ActValue assign.
Proof.
  unfold value_options. cbn [In]. intros H.
  repeat (destruct H as [<- | H]; [eexists; reflexivity|]).
  destruct H.
Qed.

Lemma arg_chain_flag_option (arg : string) (params : whisper_params) :
  In arg flag_options ->
  exists params', arg_chain stoi stof arg params = ActFlag params'.
Proof.
  unfold flag_options. cbn [In]. intros H.
  repeat (destruct H as [<- | H]; [eexists; reflexivity|]).
  destruct H.
Qed.

Lemma whisper_params_parse_missing_value (flags : list string) (arg : string) :
  Forall (fun flag => In flag flag_options) flags ->
  In arg value_options ->
  forall params,
    whisper_params_parse stoi stof whisper_lang_id (flags ++ [arg]) params
    = ParseAbort.
Proof.
  intros Hflags Harg. induction Hflags as [|flag flags Hflag Hrest IH];
    intros params.
  - destruct (arg_chain_value_option arg params Harg) as [assign H].
    cbn [app whisper_params_parse]. rewrite H. reflexivity.
  - destruct (arg_chain_flag_option flag params Hflag) as [params' H].
    cbn [app whisper_params_parse]. rewrite H. apply IH.
Qed.

(** X18. An option that takes a value, given as the last argument after any
    number of flags, ends the run without an exit code of [main] and before
    any collaborator is initialised: no error message and no exit code 1. *)
Theorem option_without_value_terminates
    (env : startup_env) (flags : list string) (arg : string) :
  Forall (fun flag => In flag flag_options) flags ->
  In arg value_options ->
  args env = flags ++ [arg] ->
  main WHISPER_SAMPLE_RATE stoi stof whisper_lang_id hardware_concurrency env
  = (Terminated, []).
Proof.
  intros Hflags Harg Hargs. unfold main.
  rewrite Hargs, whisper_params_parse_missing_value by assumption.
  reflexivity.
Qed.

(** X19. [main] enters the loop only after the command line was accepted
    with clamped parameters, without [--list-devices], with the three
    collaborators initialised and with window sizes that are not negative;
    the run is then the four start-up calls followed by the loop and the
    release of the collaborators. *)
Theorem loop_starts_only_when_ready (env : startup_env) :
  In EvAudioResume
     (trace (main WHISPER_SAMPLE_RATE stoi stof whisper_lang_id
                  hardware_concurrency env)) ->
  exists params,
    whisper_params_parse stoi stof whisper_lang_id (args env)
      (default_params hardware_concurrency) = ParseReturn true params
    /\ clamped params
    /\ list_devices params = false
    /\ (whisper_init_ok env = true /\ vad_init_ok env = true
        /\ audio_init_ok env = true)
    /\ (0 <= n_samples_buffer WHISPER_SAMPLE_RATE params
        /\ 0 <= n_samples_vad WHISPER_SAMPLE_RATE params)
    /\ trace (main WHISPER_SAMPLE_RATE stoi stof whisper_lang_id
                   hardware_concurrency env)
       = [EvWhisperInit; EvVadInit; EvAudioInit; EvAudioResume]
         ++ trace (run_loop WHISPER_SAMPLE_RATE (processing_info env params)
                            (ticks env)).
Proof.
  unfold main.
  destruct (whisper_params_parse stoi stof whisper_lang_id (args env)
              (default_params hardware_concurrency))
    as [ok params | code |] eqn:Hparsed; [|settle|settle].
  destruct ok; [|settle].
  destruct (list_devices params) eqn:Hl; [settle|].
  destruct (whisper_init_ok env) eqn:Hw; cbn [negb]; [|settle].
  destruct (vad_init_ok env) eqn:Hv; cbn [negb]; [|settle].
  destruct (Z.ltb_spec (n_samples_buffer WHISPER_SAMPLE_RATE params) 0)
    as [Hb | Hb]; cbn [orb]; [settle|].
  destruct (Z.ltb_spec (n_samples_vad WHISPER_SAMPLE_RATE params) 0)
    as [Hn | Hn]; [settle|].
  destruct (audio_init_ok env) eqn:Ha; cbn [negb]; [|settle].
  intros _. exists params.
  split; [reflexivity|].
  split; [apply (whisper_params_parse_clamped _ _ _ _ Hparsed)|].
  split; [exact Hl|]. split; [auto|]. split; [auto|].
  rewrite !trace_bind. cbn [perform trace snd app ret].
  rewrite app_nil_r. reflexivity.
Qed.

End CommandLine.

(** [-t 2 -t 8] is parsed as [-t 8]: eight threads. *)
Lemma repeated_option_last_wins_witness :
  example_parse ["-t"; "2"; "-t"; "8"]%string = example_parse ["-t"; "8"]%string
  /\ example_parse ["-t"; "8"]%string
     = ParseReturn true (set_n_threads 8 example_params).
Proof.
  split; [|reflexivity].
  unfold example_parse.
  apply (repeated_option_last_wins example_stoi (fun _ => None) example_lang_id
           "-t" "2" "8" [] example_params (set_n_threads 2 example_params)
           (fun v => option_map (fun n => set_n_threads n example_params)
                                (example_stoi v))).
  - reflexivity.
  - reflexivity.
Defined.

(** [-v --threads]: the value of [--threads] is missing. *)
Lemma option_without_value_terminates_witness :
  Forall (fun flag => In flag flag_options) ["-v"%string]
  /\ In "--threads"%string value_options
  /\ example_main ["-v"; "--threads"]%string true true true = (Terminated, []).
Proof.
  assert (Hf : Forall (fun flag => In flag flag_options) ["-v"%string])
    by (constructor; [cbn; auto 10 | constructor]).
  assert (Ha : In "--threads"%string value_options) by (cbn; auto 20).
  split; [exact Hf|]. split; [exact Ha|].
  unfold example_main.
  apply (option_without_value_terminates 16000 (fun _ => None) (fun _ => None)
           (fun lang => if String.eqb lang "en" then 0 else -1) 4 _
           ["-v"%string] "--threads"%string Hf Ha).
  reflexivity.
Defined.

(** No argument and every collaborator ready: the loop is entered, with the
    default parameters. *)
Lemma loop_starts_only_when_ready_witness :
  In EvAudioResume (trace (example_main [] true true true))
  /\ exists params,
       whisper_params_parse (fun _ => None) (fun _ => None)
         (fun lang => if String.eqb lang "en" then 0 else -1) []
         (default_params 4) = ParseReturn true params
       /\ clamped params.
Proof.
  assert (H : In EvAudioResume (trace (example_main [] true true true)))
    by (vm_compute; auto 10).
  split; [exact H|].
  destruct (loop_starts_only_when_ready 16000 (fun _ => None) (fun _ => None)
              (fun lang => if String.eqb lang "en" then 0 else -1) 4 _ H)
    as [params [Hp [Hc _]]].
  exists params. split; [exact Hp | exact Hc].
Defined.

(* ================================================================== *)
(** * The device listing, the log filter and the wait *)

Lemma printed_devices_app (t1 t2 : list io_event) :
  printed_devices (t1 ++ t2) = printed_devices t1 ++ printed_devices t2.
Proof. unfold printed_devices. apply flat_map_app. Qed.

Lemma list_devices_from_printed (sdl : sdl_env) (count : nat) :
  forall i,
    printed_devices (list_devices_from sdl i count)
    = map (fun k => (i + Z.of_nat k, shown_name sdl (i + Z.of_nat k)))
          (seq 0 count).
Proof.
  unfold printed_devices.
  induction count as [|count IH]; intros i.
  - reflexivity.
  - cbn [list_devices_from seq map flat_map app].
    rewrite IH, <- seq_shift, map_map.
    replace (i + Z.of_nat 0) with i by lia.
    f_equal. apply map_ext. intros k.
    replace (i + 1 + Z.of_nat k) with (i + Z.of_nat (S k)) by lia.
    reflexivity.
Qed.

Lemma list_devices_from_quits (sdl : sdl_env) (count : nat) :
  forall i, filter is_sdl_quit (list_devices_from sdl i count) = [].
Proof.
  induction count as [|count IH]; intros i; [reflexivity|].
  cbn [list_devices_from filter is_sdl_quit]. apply IH.
Qed.

(** X20. The device listing prints one line for each device that SDL
    reports, in order, with the indices 0, 1, ... and the name of the device
    or ["Unknown Device"] when SDL has no name for it; it prints nothing
    when [SDL_Init] or [SDL_GetNumAudioDevices] fails. *)
Theorem device_listing_prints_every_device (sdl : sdl_env) :
  printed_devices (list_audio_devices sdl)
  = if (sdl_init sdl <? 0) || (sdl_num_devices sdl <? 0) then []
    else map (fun k => (Z.of_nat k, shown_name sdl (Z.of_nat k)))
             (seq 0 (Z.to_nat (sdl_num_devices sdl))).
Proof.
  unfold list_audio_devices.
  destruct (sdl_init sdl <? 0); [reflexivity|].
  destruct (sdl_num_devices sdl <? 0); [reflexivity|].
  cbn [orb].
  transitivity (printed_devices
                  (list_devices_from sdl 0 (Z.to_nat (sdl_num_devices sdl))
                   ++ [EvSdlQuit])); [reflexivity|].
  rewrite printed_devices_app, list_devices_from_printed.
  cbn [printed_devices flat_map app]. rewrite app_nil_r.
  apply map_ext. intros k. reflexivity.
Qed.

(** X21. The device listing calls [SDL_Quit] exactly once, as its last
    action, whenever [SDL_Init] succeeded, also when the enumeration of the
    devices fails; when [SDL_Init] failed it calls nothing else. *)
Theorem device_listing_quits_sdl (sdl : sdl_env) :
  if sdl_init sdl <? 0 then list_audio_devices sdl = [EvSdlInit]
  else List.length (filter is_sdl_quit (list_audio_devices sdl)) = 1%nat
       /\ exists before, list_audio_devices sdl = before ++ [EvSdlQuit].
Proof.
  unfold list_audio_devices.
  destruct (sdl_init sdl <? 0); [reflexivity|].
  destruct (sdl_num_devices sdl <? 0).
  - split; [reflexivity|].
    exists [EvSdlInit; EvSdlGetNumAudioDevices]. reflexivity.
  - split.
    + cbn [filter is_sdl_quit]. rewrite filter_app, list_devices_from_quits.
      reflexivity.
    + exists (EvSdlInit :: EvSdlGetNumAudioDevices
              :: list_devices_from sdl 0 (Z.to_nat (sdl_num_devices sdl))).
      reflexivity.
Qed.

(** X22. With the log level that [whisper_params_parse] leaves, a message of
    level 5 or more is always written to [stderr] and flushed, and a message
    of negative level never is; a message written under some log level is
    written under every lower one. *)
Theorem log_filter_after_parse
    (params : whisper_params) (level : Z) (text : string) :
  clamped params ->
  (5 <= level ->
   whisper_log_callback_filtered (whisper_log_level params) level text
   = [EvFputsStderr text; EvFflushStderr])
  /\ (level < 0 ->
      whisper_log_callback_filtered (whisper_log_level params) level text = [])
  /\ (forall lower higher,
        lower <= higher ->
        whisper_log_callback_filtered higher level text <> [] ->
        whisper_log_callback_filtered lower level text
        = [EvFputsStderr text; EvFflushStderr]).
Proof.
  unfold clamped, whisper_log_callback_filtered. intros [_ [_ [_ Hlevel]]].
  split; [|split].
  - intros H. destruct (Z.leb_spec (whisper_log_level params) level);
      [reflexivity | lia].
  - intros H. destruct (Z.leb_spec (whisper_log_level params) level);
      [lia | reflexivity].
  - intros lower higher Hle H.
    destruct (Z.leb_spec higher level); [|congruence].
    destruct (Z.leb_spec lower level); [reflexivity | lia].
Qed.

(** The default log level 4: an error (level 4) is written, a warning
    (level 3) is not. *)
Lemma log_filter_after_parse_witness :
  clamped example_params
  /\ whisper_log_callback_filtered (whisper_log_level example_params) 5 "x"
     = [EvFputsStderr "x"; EvFflushStderr]
  /\ whisper_log_callback_filtered (whisper_log_level example_params) 4 "x"
     = [EvFputsStderr "x"; EvFflushStderr]
  /\ whisper_log_callback_filtered (whisper_log_level example_params) 3 "x" = [].
Proof.
  assert (H : clamped example_params)
    by (unfold clamped; vm_compute; intuition discriminate).
  split; [exact H|]. split; [|split; reflexivity].
  apply (proj1 (log_filter_after_parse example_params 5 "x" H)). lia.
Defined.

(** X23. With clamped parameters the loop sleeps exactly the time missing to
    [min_step_ms] since the last fetch, so that at least [min_step_ms], and
    then at least 100 ms, lie between two fetches; it does not sleep when
    that time has already passed. *)
Theorem wait_completes_the_minimum_step
    (params : whisper_params) (time_since_last : Z) :
  clamped params ->
  min_step_ms params < 2 ^ 31 ->
  0 <= time_since_last < 2 ^ 63 ->
  match cadence_sleep params time_since_last with
  | Some duration =>
      0 < duration
      /\ time_since_last + duration = min_step_ms params
      /\ 100 <= time_since_last + duration
  | None => min_step_ms params <= time_since_last
  end.
Proof.
  unfold clamped, cadence_sleep, sleep_duration.
  intros [_ [_ [Hmin _]]] Hmax Ht.
  rewrite int64_small by lia.
  destruct (Z.ltb_spec 0 (min_step_ms params - time_since_last)); lia.
Qed.

(** The default step of 500 ms: 120 ms after the last fetch the loop sleeps
    380 ms, 700 ms after it the loop does not sleep. *)
Lemma wait_completes_the_minimum_step_witness :
  clamped example_params
  /\ cadence_sleep example_params 120 = Some 380
  /\ cadence_sleep example_params 700 = None
  /\ match cadence_sleep example_params 120 with
     | Some duration => 120 + duration = min_step_ms example_params
     | None => False
     end.
Proof.
  assert (H : clamped example_params)
    by (unfold clamped; vm_compute; intuition discriminate).
  assert (Hmax : min_step_ms example_params < 2 ^ 31)
    by (vm_compute; reflexivity).
  assert (Ht : 0 <= 120 < 2 ^ 63)
    by (split; [discriminate | reflexivity]).
  assert (E : cadence_sleep example_params 120 = Some 380) by reflexivity.
  split; [exact H|]. split; [exact E|]. split; [reflexivity|].
  pose proof (wait_completes_the_minimum_step example_params 120 H Hmax Ht) as W.
  rewrite E in W |- *. exact (proj1 (proj2 W)).
Defined.

(** The listing of two devices, the second one without a name. *)
Example listing_of_two_devices :
  list_audio_devices example_sdl
  = [EvSdlInit; EvSdlGetNumAudioDevices;
     EvSdlGetAudioDeviceName 0; EvPrintDevice 0 "Built-in Microphone";
     EvSdlGetAudioDeviceName 1; EvPrintDevice 1 "Unknown Device";
     EvSdlQuit].
Proof. vm_compute. reflexivity. Qed.

(* ================================================================== *)
(** * The loop when the clock runs backwards *)

Lemma lastn_all {A : Type} (v : list A) : lastn (List.length v) v = v.
Proof. unfold lastn. rewrite Nat.sub_diag. reflexivity. Qed.

(** A negative clock difference converted to [size_t] is larger than any
    vector: [std::min] picks the size of the window. *)
Lemma new_samples_negative_elapsed (WHISPER_SAMPLE_RATE : Z) (env : tick_env) :
  - 2 ^ 63 <= elapsed_time_ms env * WHISPER_SAMPLE_RATE <= -1000 ->
  Z.of_nat (List.length (audio_get env)) < 2 ^ 63 ->
  new_samples WHISPER_SAMPLE_RATE env = Z.of_nat (List.length (audio_get env)).
Proof.
  intros He Hlen. unfold new_samples.
  rewrite int64_small by lia.
  set (q := (elapsed_time_ms env * WHISPER_SAMPLE_RATE) ÷ 1000).
  assert (Hq : - 2 ^ 63 <= q <= -1).
  { subst q. split.
    - apply Z.le_trans with ((- 2 ^ 63) ÷ 1000); [vm_compute; discriminate|].
      apply Z.quot_le_mono; lia.
    - change (-1) with ((-1000) ÷ 1000).
      apply Z.quot_le_mono; lia. }
  assert (Hs : size_t q = q + 2 ^ 64).
  { unfold size_t.
    rewrite <- (Z_mod_plus_full q 1 (2 ^ 64)).
    apply Z.mod_small. lia. }
  rewrite Hs. lia.
Qed.

(** C2. The code does not keep to the cap of the claim when the clock
    difference of a tick is negative (the product with the sample rate being
    at most -1000 and within [long long]): lines 362-363 convert the negative
    count to [size_t], the minimum with the size of the window is that size,
    and in state Speech the whole window is appended to the segment, while
    min(elapsed_time_ms * sample_rate / 1000, window length) is negative and
    asks for no sample at all. On a voice verdict the segment goes on with
    the window appended. *)
Theorem backwards_clock_appends_whole_window
    (WHISPER_SAMPLE_RATE : Z) (params : whisper_params) (st : loop_state)
    (env : tick_env) :
  in_speech st = true ->
  - 2 ^ 63 <= elapsed_time_ms env * WHISPER_SAMPLE_RATE <= -1000 ->
  Z.of_nat (List.length (audio_get env)) < 2 ^ 63 ->
  new_samples WHISPER_SAMPLE_RATE env = Z.of_nat (List.length (audio_get env))
  /\ accumulate WHISPER_SAMPLE_RATE st env
     = {| in_speech := true;
          pcmf32_segment := pcmf32_segment st ++ audio_get env |}
  /\ Z.min (elapsed_time_ms env * WHISPER_SAMPLE_RATE / 1000)
           (Z.of_nat (List.length (audio_get env))) < 0
  /\ capped_new_count WHISPER_SAMPLE_RATE env = 0%nat
  /\ (voice_tick WHISPER_SAMPLE_RATE params env ->
      result (tick WHISPER_SAMPLE_RATE params st env)
      = {| in_speech := true;
           pcmf32_segment := pcmf32_segment st ++ audio_get env |}).
Proof.
  intros Hs He Hlen.
  pose proof (new_samples_negative_elapsed WHISPER_SAMPLE_RATE env He Hlen) as Hn.
  assert (Ha : accumulate WHISPER_SAMPLE_RATE st env
               = {| in_speech := true;
                    pcmf32_segment := pcmf32_segment st ++ audio_get env |}).
  { rewrite accumulate_appends_new_count by exact Hs.
    unfold new_count. rewrite Hn, Nat2Z.id, lastn_all. reflexivity. }
  assert (Hd : elapsed_time_ms env * WHISPER_SAMPLE_RATE / 1000 <= -1).
  { change (-1) with ((-1000) / 1000). apply Z.div_le_mono; lia. }
  split; [exact Hn|]. split; [exact Ha|]. split; [lia|].
  split; [unfold capped_new_count; lia|].
  intros Hv. rewrite tick_result, Hv, Hs. exact Ha.
Qed.

(** Half a second of voice opens a segment of 8000 samples; on the next tick
    the clock has gone back by 1 ms and the detector hears voice again. The
    same 8000 samples are appended a second time. *)
Lemma backwards_clock_appends_whole_window_witness :
  let st := result (tick 16000 example_params initial_state voice_example) in
  let after := result (tick 16000 example_params st backwards_clock_example) in
  in_speech st = true
  /\ elapsed_time_ms backwards_clock_example * 16000 = -16000
  /\ Z.of_nat (List.length (pcmf32_segment st)) = 8000
  /\ capped_new_count 16000 backwards_clock_example = 0%nat
  /\ pcmf32_segment after = pcmf32_segment st ++ audio_get backwards_clock_example
  /\ Z.of_nat (List.length (pcmf32_segment after)) = 16000.
Proof.
  cbv zeta.
  set (st := result (tick 16000 example_params initial_state voice_example)).
  assert (Hs : in_speech st = true) by (vm_compute; reflexivity).
  assert (He : - 2 ^ 63 <= elapsed_time_ms backwards_clock_example * 16000 <= -1000)
    by (split; vm_compute; discriminate).
  assert (Hlen : Z.of_nat (List.length (audio_get backwards_clock_example)) < 2 ^ 63)
    by (vm_compute; reflexivity).
  assert (Hv : voice_tick 16000 example_params backwards_clock_example)
    by (vm_compute; reflexivity).
  destruct (backwards_clock_appends_whole_window 16000 example_params st
              backwards_clock_example Hs He Hlen) as [_ [_ [_ [Hc Ht]]]].
  specialize (Ht Hv).
  split; [exact Hs|]. split; [reflexivity|].
  split; [vm_compute; reflexivity|]. split; [exact Hc|].
  rewrite Ht. cbn [pcmf32_segment]. split; [reflexivity|].
  vm_compute. reflexivity.
Defined.

(* ================================================================== *)
(** * The text of an utterance *)

Lemma transcription_text_collects (r : whisper_result) :
  transcription_text r
  = if full_status r =? 0 then trim (collect_text (full_segments r))
    else EmptyString.
Proof.
  unfold transcription_text, collect_text.
  rewrite collect_text_from. reflexivity.
Qed.

Lemma transcription_text_trimmed (r : whisper_result) :
  trimmed (transcription_text r).
Proof.
  unfold transcription_text.
  destruct (full_status r =? 0); [apply trim_trimmed | apply trimmed_empty].
Qed.

Lemma completed_utterance_text
    (WHISPER_SAMPLE_RATE : Z) (params : whisper_params) (st : loop_state)
    (env : tick_env) :
  completed_utterance WHISPER_SAMPLE_RATE params st env
  = utterance_text WHISPER_SAMPLE_RATE params st env.
Proof.
  unfold completed_utterance, utterance_text.
  destruct (negb _ && in_speech st); [|reflexivity].
  cbv zeta. rewrite transcribe_audio_segment_result, transcription_text_collects.
  reflexivity.
Qed.

Lemma completed_utterances_texts
    (WHISPER_SAMPLE_RATE : Z) (params : whisper_params) (ticks : list tick_env) :
  forall st,
    completed_utterances WHISPER_SAMPLE_RATE params st ticks
    = utterance_texts WHISPER_SAMPLE_RATE params st ticks.
Proof.
  induction ticks as [|env rest IH]; intros st; [reflexivity|].
  cbn [completed_utterances utterance_texts].
  rewrite completed_utterance_text, IH. reflexivity.
Qed.

(** C8. The text of a completed utterance is the concatenation of the texts
    of the segments that the model recognised in the buffer, trimmed of
    leading and trailing whitespace (and empty when the buffer is empty or
    the model fails). Standard output receives, in order, one line for each
    completed utterance whose trimmed text is not empty and nothing else:
    the trimmed text followed by a newline, flushed next. A tick that
    completes an utterance calls the model on the buffer and then prints the
    line; nothing else of a tick touches standard output. *)
Theorem emitted_lines_are_trimmed_transcriptions
    (WHISPER_SAMPLE_RATE : Z) (params : whisper_params) (st : loop_state)
    (ticks : list tick_env) :
  Forall trimmed (utterance_texts WHISPER_SAMPLE_RATE params st ticks)
  /\ stdout_events (trace (main_loop WHISPER_SAMPLE_RATE params st ticks))
     = flat_map (fun t => [EvPrintf (t ++ newline)%string; EvFflush])
         (filter (fun t => negb (string_empty t))
                 (utterance_texts WHISPER_SAMPLE_RATE params st ticks))
  /\ (forall env,
        let verdict := result (vad_stage WHISPER_SAMPLE_RATE params env) in
        let segment := pcmf32_segment (accumulate WHISPER_SAMPLE_RATE st env) in
        let text :=
          trim (fold_right String.append EmptyString
                  (map text_or_empty
                       (full_segments (ctx env (full_params params) segment)))) in
        stdout_events (trace (vad_stage WHISPER_SAMPLE_RATE params env)) = []
        /\ trace (tick WHISPER_SAMPLE_RATE params st env)
           = trace (vad_stage WHISPER_SAMPLE_RATE params env)
             ++ (if negb verdict && in_speech st then
                   if vec_empty segment then []
                   else
                     EvWhisperFull (full_params params) segment
                     :: (if (full_status (ctx env (full_params params) segment) =? 0)
                            && negb (string_empty text)
                         then [EvPrintf (text ++ newline)%string; EvFflush]
                         else [])
                 else [])
        /\ utterance_text WHISPER_SAMPLE_RATE params st env
           = if negb verdict && in_speech st then
               Some (if vec_empty segment then EmptyString
                     else if full_status (ctx env (full_params params) segment) =? 0
                          then text else EmptyString)
             else None).
Proof.
  split; [|split].
  - rewrite <- completed_utterances_texts. apply completed_utterances_trimmed.
  - rewrite <- completed_utterances_texts. apply main_loop_stdout.
  - intros env verdict segment text.
    split; [apply vad_stage_trace|]. split.
    + rewrite tick_trace. f_equal. fold verdict.
      destruct (negb verdict && in_speech st); [|reflexivity].
      cbv zeta. fold segment.
      rewrite transcribe_audio_segment_trace, transcribe_audio_segment_result.
      destruct (vec_empty segment); [reflexivity|].
      unfold collect_text. rewrite collect_text_from.
      change (EmptyString ++ ?x)%string with x. fold text.
      destruct (full_status _ =? 0); cbn [andb app lines_of string_empty];
        [|reflexivity].
      unfold emitted_line. destruct (string_empty text); reflexivity.
    + reflexivity.
Qed.

(* ================================================================== *)
(** * Exit codes by what start-up meets *)


Section StartupOutcome.

Variable WHISPER_SAMPLE_RATE : Z.
Variable stoi : string -> option Z.
Variable stof : string -> option float.
Variable whisper_lang_id : string -> Z.
Variable hardware_concurrency : Z.


End StartupOutcome.
